(** * MVTLayer: feature identity, de-duplication, frustum containment and
      tile placement

    A shallow embedding of [modules/geo-layers/src/mvt-layer/mvt-layer.js].

    Conventions of the embedding.
    - A finite JavaScript number is the rational it denotes ([Qc], canonical
      fractions, so that Leibniz equality is numeric equality); [NaN] and
      [±Infinity] are constructors of their own.  The arithmetic of the
      layer itself (the tile placement) is double arithmetic: the exact
      result rounded to the nearest binary64 value, ties to even, with
      overflow to [±Infinity].  There is one zero: [-0] and [+0], which
      [===], [<] and [Set] do not tell apart, are the same value.
    - A call that can raise returns a [result]: [Ok v] or [Throw e].
    - A [Set] is a [gset JsValue]: on this value model the [SameValueZero]
      comparison of [Set.prototype.has] is Leibniz equality ([NaN] is one
      value, there is a single zero, objects are compared by reference).
    - [math.gl] ([Matrix4], [Vector3]) is an external library: its operations
      are the fields of the class [MathGL], and every theorem holds for every
      instance.  One concrete instance is given to run the scenarios. *)

From Stdlib Require Import QArith Qcanon Qpower.
From stdpp Require Import gmap strings list.

Local Open Scope Qc_scope.

(** ** JavaScript values *)

Inductive JsNumber : Type :=
  | Fin (q : Qc)
  | NaN
  | Infinity (negative : bool).

Inductive JsValue : Type :=
  | VUndefined
  | VNull
  | VBool (b : bool)
  | VNumber (n : JsNumber)
  | VString (s : string)
  | VObject (ref : positive).

#[global] Instance JsNumber_eq_dec : EqDecision JsNumber.
Proof. solve_decision. Defined.

#[global] Instance JsValue_eq_dec : EqDecision JsValue.
Proof. solve_decision. Defined.

Definition JsNumber_enc (n : JsNumber) : Qc + (unit + bool) :=
  match n with
  | Fin q => inl q
  | NaN => inr (inl tt)
  | Infinity s => inr (inr s)
  end.

Definition JsNumber_dec (c : Qc + (unit + bool)) : JsNumber :=
  match c with
  | inl q => Fin q
  | inr (inl _) => NaN
  | inr (inr s) => Infinity s
  end.

#[global] Instance JsNumber_countable : Countable JsNumber.
Proof.
  refine (inj_countable' JsNumber_enc JsNumber_dec _).
  intros []; reflexivity.
Defined.

Definition JsValue_enc (v : JsValue)
  : bool + (bool + (JsNumber + (string + positive))) :=
  match v with
  | VUndefined => inl false
  | VNull => inl true
  | VBool b => inr (inl b)
  | VNumber n => inr (inr (inl n))
  | VString s => inr (inr (inr (inl s)))
  | VObject r => inr (inr (inr (inr r)))
  end.

Definition JsValue_dec (c : bool + (bool + (JsNumber + (string + positive))))
  : JsValue :=
  match c with
  | inl false => VUndefined
  | inl true => VNull
  | inr (inl b) => VBool b
  | inr (inr (inl n)) => VNumber n
  | inr (inr (inr (inl s))) => VString s
  | inr (inr (inr (inr r))) => VObject r
  end.

#[global] Instance JsValue_countable : Countable JsValue.
Proof.
  refine (inj_countable' JsValue_enc JsValue_dec _).
  intros []; reflexivity.
Defined.

(** The number literal [-1], the "no identity" sentinel. *)
Definition minus_one : JsValue := VNumber (Fin (-1)).

(** [a === b].  It differs from the [Set] comparison on [NaN] only. *)
Definition strict_equals (a b : JsValue) : bool :=
  match a, b with
  | VNumber NaN, _ | _, VNumber NaN => false
  | _, _ => bool_decide (a = b)
  end.

(** [Number.isFinite(v)]: no coercion, true on finite numbers only. *)
Definition Number_isFinite (v : JsValue) : bool :=
  match v with
  | VNumber (Fin _) => true
  | _ => false
  end.

(** Truthiness of a string: [if (s)]. *)
Definition truthy_string (s : string) : bool :=
  match s with
  | EmptyString => false
  | String _ _ => true
  end.

(** Truthiness of a value: [if (v)].  Every object is truthy. *)
Definition truthy (v : JsValue) : bool :=
  match v with
  | VUndefined | VNull => false
  | VBool b => b
  | VNumber (Fin q) => negb (bool_decide (q = 0))
  | VNumber NaN => false
  | VNumber (Infinity _) => true
  | VString s => truthy_string s
  | VObject _ => true
  end.

(** ** Calls that can raise *)

Inductive JsError : Type :=
  | TypeError (msg : string)
  | Error (msg : string).

Inductive result (A : Type) : Type :=
  | Ok (a : A)
  | Throw (e : JsError).

Arguments Ok {A} a.
Arguments Throw {A} e.

#[global] Instance result_ret : MRet result := fun A a => Ok a.

#[global] Instance result_bind : MBind result := fun A B k m =>
  match m with
  | Ok a => k a
  | Throw e => Throw e
  end.

(** ** Features *)

(** Nested coordinate arrays: a number, or an array of such values. *)
#[warnings="-register-all"]
Inductive Coords : Type :=
  | CNum (q : Qc)
  | CArr (items : list Coords).

(** [geometry.coordinates]; [None] is a geometry without that member. *)
Record Geometry : Type := {
  geometry_type : string;
  coordinates : option Coords
}.

(** A feature object.  [fid] is the own member [id]: [None] when
    ['id' in feature] is false, [Some v] when the key is present (also with
    the value [undefined]).  [properties] and [geometry] are [None] when the
    member is missing (or [null]), so that reading a member of it raises.
    Members are own members: what the prototype of a plain object would
    answer (for a key such as ["constructor"]) is left out. *)
Record Feature : Type := {
  fid : option JsValue;
  properties : option (gmap string JsValue);
  geometry : option Geometry
}.

(** [function getFeatureUniqueId(feature, uniqueIdProperty)] *)
Definition getFeatureUniqueId (feature : Feature) (uniqueIdProperty : string)
  : result JsValue :=
  if truthy_string uniqueIdProperty then
    match properties feature with
    | Some props => Ok (default VUndefined (props !! uniqueIdProperty))
    | None => Throw (TypeError "Cannot read properties of undefined")
    end
  else
    match fid feature with
    | Some v => Ok v
    | None => Ok minus_one
    end.

(** [function isFeatureIdDefined(value)] *)
Definition isFeatureIdDefined (value : JsValue) : bool :=
  negb (strict_equals value VUndefined)
  && negb (strict_equals value VNull)
  && negb (strict_equals value (VString EmptyString)).

(** ** The picking results and the tiles *)

(** A hit-test result of [deck.pickObjects]; only [object] is read. *)
Record PickingInfo : Type := {
  object : Feature
}.

(** A tile of the tileset: integer indices and the [data] slot, [None] while
    [Array.isArray(tile.data)] is false (not yet decoded). *)
Record Tile : Type := {
  tile_x : Z;
  tile_y : Z;
  tile_z : Z;
  tile_data : option (list Feature)
}.

(** An integer as a rational. *)
Definition Z2Qc (n : Z) : Qc := Q2Qc (inject_Z n).

(** ** Double arithmetic *)

(** The rational [2^e]. *)
Definition pow2 (e : Z) : Qc := Q2Qc (Qpower (2 # 1) e).

(** The quotient [n/d] of two positive integers rounded to the nearest
    integer, a tie going to the even one. *)
Definition round_half_even (n d : Z) : Z :=
  let q := (n / d)%Z in
  match (2 * (n mod d) ?= d)%Z with
  | Lt => q
  | Gt => (q + 1)%Z
  | Eq => if Z.even q then q else (q + 1)%Z
  end.

(** The double nearest to the positive rational [n/d].  Every double is a
    multiple of [2^-1074]: the value is counted in that unit, the count is
    rounded to 53 significant bits ([shift] is the number of bits dropped,
    none for the subnormal values), and a count of [2^2098] or more, that
    is a value of [2^1024] or more, overflows. *)
Definition round64_pos (n d : Z) : JsNumber :=
  let scaled := (n * 2 ^ 1074)%Z in
  let shift := Z.max 0 (Z.log2 (scaled / d) + 1 - 53) in
  let N := (round_half_even scaled (d * 2 ^ shift) * 2 ^ shift)%Z in
  if (2 ^ 2098 <=? N)%Z then Infinity false
  else Fin (Z2Qc N / Z2Qc (2 ^ 1074)).

(** [-a] *)
Definition js_neg (a : JsNumber) : JsNumber :=
  match a with
  | Fin x => Fin (- x)
  | NaN => NaN
  | Infinity s => Infinity (negb s)
  end.

(** The double nearest to a rational: round to nearest, ties to even. *)
Definition round64 (q : Qc) : JsNumber :=
  match Qnum q with
  | Z0 => Fin 0
  | Zpos n => round64_pos (Zpos n) (Zpos (Qden q))
  | Zneg n => js_neg (round64_pos (Zpos n) (Zpos (Qden q)))
  end.

(** [a * b] *)
Definition js_mul (a b : JsNumber) : JsNumber :=
  match a, b with
  | NaN, _ | _, NaN => NaN
  | Fin x, Fin y => round64 (x * y)
  | Infinity s, Fin y | Fin y, Infinity s =>
      if bool_decide (y = 0) then NaN
      else Infinity (xorb s (bool_decide (y < 0)))
  | Infinity s, Infinity t => Infinity (xorb s t)
  end.

(** [a / b].  A zero divisor is taken as [+0]: the divisors of the layer
    are results of [Math.pow], which are never [-0]. *)
Definition js_div (a b : JsNumber) : JsNumber :=
  match a, b with
  | NaN, _ | _, NaN => NaN
  | Fin x, Fin y =>
      if bool_decide (y = 0) then
        if bool_decide (x = 0) then NaN else Infinity (bool_decide (x < 0))
      else round64 (x / y)
  | Fin _, Infinity _ => Fin 0
  | Infinity s, Fin y => Infinity (xorb s (bool_decide (y < 0)))
  | Infinity _, Infinity _ => NaN
  end.

(** [a - b] *)
Definition js_sub (a b : JsNumber) : JsNumber :=
  match a, b with
  | NaN, _ | _, NaN => NaN
  | Fin x, Fin y => round64 (x - y)
  | Fin _, Infinity t => Infinity (negb t)
  | Infinity s, Fin _ => Infinity s
  | Infinity s, Infinity t => if Bool.eqb s t then NaN else Infinity s
  end.

(** An integer index of a tile as the number that holds it: itself when it
    is a double, as every integer up to [2^53] is. *)
Definition number_of_Z (n : Z) : JsNumber := round64 (Z2Qc n).

(** [Math.pow(2, z)] at an integer exponent: the double nearest to [2^z],
    which is [2^z] itself from [2^-1074] to [2^1023], [Infinity] above and
    [0] below. *)
Definition Math_pow2 (z : Z) : JsNumber := round64 (pow2 z).

Definition WORLD_SIZE : Qc := Z2Qc 512.

(** [function getModelMatrixScale(tile)] *)
Definition getModelMatrixScale (tile : Tile) : list JsNumber :=
  let worldScale := Math_pow2 (tile_z tile) in
  let xScale := js_div (Fin WORLD_SIZE) worldScale in
  let yScale := js_neg xScale in
  [xScale; yScale; Fin 1].

(** [function getCoordinateOrigin(tile)] *)
Definition getCoordinateOrigin (tile : Tile) : list JsNumber :=
  let worldScale := Math_pow2 (tile_z tile) in
  let xOffset :=
    js_div (js_mul (Fin WORLD_SIZE) (number_of_Z (tile_x tile)))
      worldScale in
  let yOffset :=
    js_mul (Fin WORLD_SIZE)
      (js_sub (Fin 1) (js_div (number_of_Z (tile_y tile)) worldScale)) in
  [xOffset; yOffset; Fin 0].

(** ** The external vector library *)

(** What the layer uses of [math.gl]: [new Matrix4()], [translate], [scale]
    and [transform] (which raises on what it does not take for a vector) of
    [Matrix4], and [dot] of [Vector3]. *)
Class MathGL : Type := {
  Matrix4 : Type;
  Matrix4_new : Matrix4;
  Matrix4_translate : Matrix4 -> list JsNumber -> Matrix4;
  Matrix4_scale : Matrix4 -> list JsNumber -> Matrix4;
  Matrix4_transform : Matrix4 -> Coords -> result (list Qc);
  Vector3 : Type;
  Vector3_dot : Vector3 -> list Qc -> Qc
}.

(** One frustum plane: [{normal, distance}]. *)
Record Plane `{MathGL} : Type := {
  normal : Vector3;
  distance : Qc
}.

(** [Object.keys(o)].  The order of a [gmap] is not the insertion order of
    the object; the callers below fold a pure test over the keys, on which
    the order has no effect. *)
Definition Object_keys {A : Type} (o : gmap string A) : list string :=
  (map_to_list o).*1.

(** [array.some(callback)] with a callback that can raise: it stops at the
    first element on which the callback answers true, and at the first one
    on which it raises. *)
Definition Array_some {A : Type} (callback : A -> result bool)
  : list A -> result bool :=
  fix some (xs : list A) : result bool :=
    match xs with
    | [] => Ok false
    | x :: xs' =>
        match callback x with
        | Ok true => Ok true
        | Ok false => some xs'
        | Throw e => Throw e
        end
    end.

Section Frustum.
Context `{MathGL}.

(** [function coordIsInPlanes(frustumPlanes, coords)] *)
Definition coordIsInPlanes (frustumPlanes : gmap string Plane)
    (coords : list Qc) : bool :=
  forallb
    (fun plane =>
       match frustumPlanes !! plane with
       | Some p => bool_decide (Vector3_dot (normal p) coords < distance p)
       | None => false
       end)
    (Object_keys frustumPlanes).

(** [coordIsInPlanes(frustumPlanes, matrix.transform(c).concat(0))] *)
Definition transformedCoordIsInPlanes (matrix : Matrix4)
    (frustumPlanes : gmap string Plane) (c : Coords) : result bool :=
  point ← Matrix4_transform matrix c;
  Ok (coordIsInPlanes frustumPlanes (point ++ [0])).

(** [function checkIfCoordsAreInsideFrustum(matrix, frustumPlanes, coords)].
    A number has no [some] method: the call raises. *)
Fixpoint checkIfCoordsAreInsideFrustum (matrix : Matrix4)
    (frustumPlanes : gmap string Plane) (coords : Coords) : result bool :=
  match coords with
  | CNum _ => Throw (TypeError "coords.some is not a function")
  | CArr items =>
      match items with
      | CNum _ :: _ => transformedCoordIsInPlanes matrix frustumPlanes coords
      | _ =>
          Array_some
            (fun c =>
               match c with
               | CArr (CArr _ :: _) =>
                   checkIfCoordsAreInsideFrustum matrix frustumPlanes c
               | _ => transformedCoordIsInPlanes matrix frustumPlanes c
               end)
            items
      end
  end.

(** The callback of [data.filter] in [getViewportFeatures], with the
    [featureCache] it mutates passed in and out. *)
Definition viewportFilter (matrix : Matrix4)
    (frustumPlanes : gmap string Plane) (uniqueIdProperty : string)
    (f : Feature) (featureCache : gset JsValue)
  : result (bool * gset JsValue) :=
  featureId ← getFeatureUniqueId f uniqueIdProperty;
  if bool_decide (featureId ∈ featureCache) then Ok (false, featureCache)
  else
    inside ← match geometry f with
             | None => Throw (TypeError "Cannot read properties of undefined")
             | Some g =>
                 match coordinates g with
                 | None => Throw (TypeError "Cannot read properties of undefined")
                 | Some coords =>
                     checkIfCoordsAreInsideFrustum matrix frustumPlanes coords
                 end
             end;
    if inside : bool then Ok (true, {[featureId]} ∪ featureCache)
    else Ok (false, featureCache).

(** [data.filter(f => ...)] *)
Fixpoint filterTileData (matrix : Matrix4)
    (frustumPlanes : gmap string Plane) (uniqueIdProperty : string)
    (data : list Feature) (featureCache : gset JsValue)
  : result (list Feature * gset JsValue) :=
  match data with
  | [] => Ok ([], featureCache)
  | f :: rest =>
      '(keep, cache1) ←
        viewportFilter matrix frustumPlanes uniqueIdProperty f featureCache;
      '(kept, cache2) ←
        filterTileData matrix frustumPlanes uniqueIdProperty rest cache1;
      Ok (if keep : bool then f :: kept else kept, cache2)
  end.

(** [tileset.selectedTiles.forEach(tile => ...)] *)
Fixpoint forEachSelectedTile (frustumPlanes : gmap string Plane)
    (uniqueIdProperty : string) (selectedTiles : list Tile)
    (featureCache : gset JsValue) (viewportFeatures : list Feature)
  : result (list Feature) :=
  match selectedTiles with
  | [] => Ok viewportFeatures
  | tile :: rest =>
      match tile_data tile with
      | None =>
          forEachSelectedTile frustumPlanes uniqueIdProperty rest
            featureCache viewportFeatures
      | Some data =>
          let transformationMatrix :=
            Matrix4_scale
              (Matrix4_translate Matrix4_new (getCoordinateOrigin tile))
              (getModelMatrixScale tile) in
          '(kept, cache1) ←
            filterTileData transformationMatrix frustumPlanes
              uniqueIdProperty data featureCache;
          forEachSelectedTile frustumPlanes uniqueIdProperty rest
            cache1 (viewportFeatures ++ kept)
      end
  end.

(** [getViewportFeatures()]: the selected tiles of the tileset, the
    [uniqueIdProperty] prop and the frustum planes of the viewport. *)
Definition getViewportFeatures (selectedTiles : list Tile)
    (uniqueIdProperty : string) (currentFrustumPlanes : gmap string Plane)
  : result (list Feature) :=
  forEachSelectedTile currentFrustumPlanes uniqueIdProperty selectedTiles
    ∅ [].

End Frustum.

(** The loop of [getRenderedFeatures] over the picked [features]. *)
Fixpoint renderedLoop (uniqueIdProperty : string)
    (features : list PickingInfo) (featureCache : gset JsValue)
    (renderedFeatures : list Feature) : result (list Feature) :=
  match features with
  | [] => Ok renderedFeatures
  | f :: rest =>
      featureId ← getFeatureUniqueId (object f) uniqueIdProperty;
      if strict_equals featureId minus_one then
        renderedLoop uniqueIdProperty rest featureCache
          (renderedFeatures ++ [object f])
      else if negb (bool_decide (featureId ∈ featureCache)) then
        renderedLoop uniqueIdProperty rest ({[featureId]} ∪ featureCache)
          (renderedFeatures ++ [object f])
      else
        renderedLoop uniqueIdProperty rest featureCache renderedFeatures
  end.

(** [getRenderedFeatures(maxFeatures)]; [features] is what
    [this._pickObjects(maxFeatures)] answered. *)
Definition getRenderedFeatures (uniqueIdProperty : string)
    (features : list PickingInfo) : result (list Feature) :=
  renderedLoop uniqueIdProperty features ∅ [].

(** ** The data-update step *)

(** The value of a numeric prop ([minZoom], [maxZoom]): a number, [null]
    or [undefined]. *)
Inductive NumericProp : Type :=
  | PUndefined
  | PNull
  | PNumber (n : JsNumber).

(** [ToNumber] on these values. *)
Definition ToNumber (p : NumericProp) : JsNumber :=
  match p with
  | PUndefined => NaN
  | PNull => Fin 0
  | PNumber n => n
  end.

(** [Number.isFinite(p)] on a numeric prop. *)
Definition NumericProp_isFinite (p : NumericProp) : bool :=
  match p with
  | PNumber (Fin _) => true
  | _ => false
  end.

(** [a < b] on numbers: false as soon as one side is [NaN]. *)
Definition js_lt (a b : JsNumber) : bool :=
  match a, b with
  | NaN, _ | _, NaN => false
  | Fin x, Fin y => bool_decide (x < y)
  | Infinity true, Infinity true => false
  | Infinity true, _ => true
  | _, Infinity true => false
  | Infinity false, _ => false
  | Fin _, Infinity false => true
  end.

(** [a > b] *)
Definition js_gt (a b : JsNumber) : bool := js_lt b a.

(** A TileJSON document, as far as the layer reads it. *)
Record TileJSON : Type := {
  tilejson : JsValue;
  tiles : option (list string);
  minzoom : JsValue;
  maxzoom : JsValue
}.

(** The [data] prop, and the [data] of the state. *)
Inductive Data : Type :=
  | DataString (url : string)
  | DataArray (templates : list string)
  | DataObject (doc : TileJSON)
  | DataNull
  | DataUndefined.

Record Props : Type := {
  props_data : Data;
  props_minZoom : NumericProp;
  props_maxZoom : NumericProp
}.

(** The part of [this.state] that [_updateTileData] writes. *)
Record State : Type := {
  state_data : Data;
  state_tileJSON : option TileJSON;
  state_minZoom : NumericProp;
  state_maxZoom : NumericProp
}.

(** The zoom bounds after a document has been read:
    the two [if]s under [if (tileJSON)]. *)
Definition minZoomWith (doc : TileJSON) (minZoom : NumericProp)
  : NumericProp :=
  match minzoom doc with
  | VNumber (Fin m) =>
      if js_gt (Fin m) (ToNumber minZoom) then PNumber (Fin m) else minZoom
  | _ => minZoom
  end.

Definition maxZoomWith (doc : TileJSON) (maxZoom : NumericProp)
  : NumericProp :=
  match maxzoom doc with
  | VNumber (Fin m) =>
      if negb (NumericProp_isFinite maxZoom)
         || js_lt (Fin m) (ToNumber maxZoom)
      then PNumber (Fin m)
      else maxZoom
  | _ => maxZoom
  end.

Section UpdateTileData.
(** [isURLTemplate] of [tile-layer/utils] and [load] of [@loaders.gl/core]
    are not part of this file: both are taken as they come.  [onDataLoad]
    is the prop of that name, [None] when it is not given; the callback can
    raise, and it can change the document it is handed: it answers the
    document as it is after the call. *)
Variable isURLTemplate : string -> bool.
Variable load : string -> result TileJSON.
Variable onDataLoad : option (TileJSON -> result TileJSON).

(** [async function fetchTileJSON(url)] *)
Definition fetchTileJSON (url : string) : result TileJSON :=
  match load url with
  | Ok doc => Ok doc
  | Throw _ => Throw (Error "An error occurred fetching TileJSON")
  end.

(** The end of [_updateTileData]: from [if (tileJSON)] to the last
    [setState]. *)
Definition finishUpdate (props : Props) (data : Data)
    (tileJSON : option TileJSON) : State :=
  match tileJSON with
  | Some doc =>
      {| state_data := match tiles doc with
                       | Some l => DataArray l
                       | None => DataUndefined
                       end;
         state_tileJSON := Some doc;
         state_minZoom := minZoomWith doc (props_minZoom props);
         state_maxZoom := maxZoomWith doc (props_maxZoom props) |}
  | None =>
      {| state_data := data;
         state_tileJSON := None;
         state_minZoom := props_minZoom props;
         state_maxZoom := props_maxZoom props |}
  end.

(** [if (onDataLoad) { onDataLoad(tileJSON); }] *)
Definition callOnDataLoad (tileJSON : TileJSON) : result TileJSON :=
  match onDataLoad with
  | Some callback => callback tileJSON
  | None => Ok tileJSON
  end.

(** [async _updateTileData({props})], run to completion: the state it
    leaves and how it ends. *)
Definition _updateTileData (props : Props) (state : State)
  : State * result unit :=
  match props_data props with
  | DataString url =>
      if negb (isURLTemplate url) then
        let state1 :=
          {| state_data := DataNull;
             state_tileJSON := None;
             state_minZoom := state_minZoom state;
             state_maxZoom := state_maxZoom state |} in
        match fetchTileJSON url ≫= callOnDataLoad with
        | Ok doc => (finishUpdate props (DataString url) (Some doc), Ok ())
        | Throw e => (state1, Throw e)
        end
      else (finishUpdate props (DataString url) None, Ok ())
  | DataArray l => (finishUpdate props (DataArray l) None, Ok ())
  | DataObject doc =>
      if truthy (tilejson doc)
      then (finishUpdate props (DataObject doc) (Some doc), Ok ())
      else (finishUpdate props (DataObject doc) None, Ok ())
  | DataNull | DataUndefined =>
      (state, Throw (TypeError "Cannot read properties of undefined"))
  end.

End UpdateTileData.

(** ** Hovering, highlighting and rendering *)

(** [array.findIndex(callback)] with a callback that can raise, counting
    from [i]: the index of the first element on which the callback answers
    true, [-1] when there is none. *)
Fixpoint findIndex_from {A : Type} (callback : A → result bool) (i : Z)
    (xs : list A) : result Z :=
  match xs with
  | [] => Ok (-1)%Z
  | x :: xs' =>
      match callback x with
      | Ok true => Ok i
      | Ok false => findIndex_from callback (i + 1)%Z xs'
      | Throw e => Throw e
      end
  end.

Definition Array_findIndex {A : Type} (callback : A → result bool)
    (xs : list A) : result Z :=
  findIndex_from callback 0%Z xs.

(** [onHover(info, pickingEvent)], as far as it writes the state: the
    arguments are the props [uniqueIdProperty] and [autoHighlight], the
    [hoveredFeatureId] of the state and [info.object] ([None] when nothing
    is under the pointer); the answer is the [hoveredFeatureId] of the state
    afterwards.  What [super.onHover] returns is not modelled. *)
Definition onHover (uniqueIdProperty : string) (autoHighlight : bool)
    (hoveredFeatureId : JsValue) (hoveredFeature : option Feature)
  : result JsValue :=
  if autoHighlight then
    newHoveredFeatureId ←
      match hoveredFeature with
      | Some f => getFeatureUniqueId f uniqueIdProperty
      | None => Ok VUndefined
      end;
    if negb (strict_equals hoveredFeatureId newHoveredFeatureId)
       && negb (strict_equals newHoveredFeatureId minus_one)
    then Ok newHoveredFeatureId
    else Ok hoveredFeatureId
  else Ok hoveredFeatureId.

(** [getHighlightedObjectIndex(tile)], with the [hoveredFeatureId] of the
    state and the props [highlightedFeatureId] and [uniqueIdProperty]. *)
Definition getHighlightedObjectIndex (hoveredFeatureId : JsValue)
    (highlightedFeatureId : JsValue) (uniqueIdProperty : string)
    (tile : Tile) : result Z :=
  let isFeatureIdPresent :=
    isFeatureIdDefined hoveredFeatureId
    || isFeatureIdDefined highlightedFeatureId in
  match isFeatureIdPresent, tile_data tile with
  | true, Some data =>
      let featureIdToHighlight :=
        if isFeatureIdDefined highlightedFeatureId
        then highlightedFeatureId
        else hoveredFeatureId in
      Array_findIndex
        (fun feature =>
           v ← getFeatureUniqueId feature uniqueIdProperty;
           Ok (strict_equals v featureIdToHighlight))
        data
  | _, _ => Ok (-1)%Z
  end.

(** Truthiness of the [data] of the state. *)
Definition Data_truthy (d : Data) : bool :=
  match d with
  | DataString url => truthy_string url
  | DataArray _ | DataObject _ => true
  | DataNull | DataUndefined => false
  end.

(** [renderLayers()]: [None] is the [null] it returns without data,
    [super_renderLayers] what [super.renderLayers()] answers. *)
Definition renderLayers {Layers : Type} (super_renderLayers : Layers)
    (state : State) : option Layers :=
  if negb (Data_truthy (state_data state)) then None
  else Some super_renderLayers.

(** ** A concrete [math.gl] *)

(** The matrices that [new Matrix4().translate(t).scale(s)] can build from
    finite vectors: a diagonal scale and a translation, kept exactly.
    [transform] takes vectors of two or three components and raises
    [Illegal vector] on anything else, as [Matrix4.transformAsPoint]
    does. *)
Module Affine.

Record matrix : Type := {
  diag : Qc * Qc * Qc;
  offset : Qc * Qc * Qc
}.

Definition finite (n : JsNumber) : Qc :=
  match n with
  | Fin q => q
  | _ => 0
  end.

Definition vec3 (v : list JsNumber) : Qc * Qc * Qc :=
  (finite (nth 0 v (Fin 0)), finite (nth 1 v (Fin 0)),
   finite (nth 2 v (Fin 0))).

Definition identity : matrix :=
  {| diag := (1, 1, 1); offset := (0, 0, 0) |}.

Definition translate (m : matrix) (v : list JsNumber) : matrix :=
  let '(sx, sy, sz) := diag m in
  let '(tx, ty, tz) := offset m in
  let '(a, b, c) := vec3 v in
  {| diag := diag m;
     offset := (tx + sx * a, ty + sy * b, tz + sz * c) |}.

Definition scale (m : matrix) (v : list JsNumber) : matrix :=
  let '(sx, sy, sz) := diag m in
  let '(a, b, c) := vec3 v in
  {| diag := (sx * a, sy * b, sz * c); offset := offset m |}.

Definition transform (m : matrix) (c : Coords) : result (list Qc) :=
  let '(sx, sy, sz) := diag m in
  let '(tx, ty, tz) := offset m in
  match c with
  | CArr [CNum x; CNum y] => Ok [sx * x + tx; sy * y + ty]
  | CArr [CNum x; CNum y; CNum z] =>
      Ok [sx * x + tx; sy * y + ty; sz * z + tz]
  | _ => Throw (Error "Illegal vector")
  end.

Definition dot (n : Qc * Qc * Qc) (v : list Qc) : Qc :=
  let '(a, b, c) := n in
  a * nth 0 v 0 + b * nth 1 v 0 + c * nth 2 v 0.

Definition mathgl : MathGL := {|
  Matrix4 := matrix;
  Matrix4_new := identity;
  Matrix4_translate := translate;
  Matrix4_scale := scale;
  Matrix4_transform := transform;
  Vector3 := Qc * Qc * Qc;
  Vector3_dot := dot
|}.

End Affine.

(** * Specification-side notions *)

(** ** Leaf positions and well-nested coordinates *)

(** The leaf positions of a coordinate structure, in the words of the
    specification: a structure that is an array whose first element is a
    number is a leaf position; of any other array, the leaf positions are
    those of its children; a bare number has none. *)
Fixpoint leaf_positions (coords : Coords) : list Coords :=
  match coords with
  | CNum _ => []
  | CArr items =>
      match items with
      | CNum _ :: _ => [coords]
      | _ => flat_map leaf_positions items
      end
  end.

(** A coordinate structure as a decoder delivers it: a position, or an array
    of coordinate structures; an empty array stands at the top only, and no
    number stands beside arrays. *)
Fixpoint well_nested (coords : Coords) : bool :=
  match coords with
  | CNum _ => false
  | CArr items =>
      match items with
      | CNum _ :: _ => true
      | _ =>
          forallb
            (fun c =>
               match c with
               | CArr (_ :: _) => well_nested c
               | _ => false
               end)
            items
      end
  end.

Section FrustumSpec.
Context `{MathGL}.

(** The point is strictly on the inner side of every plane of the set. *)
Definition inside_planes (frustumPlanes : gmap string Plane)
    (point : list Qc) : Prop :=
  ∀ name p, frustumPlanes !! name = Some p →
    Vector3_dot (normal p) point < distance p.

(** The leaf position, transformed and with a zero appended, is inside. *)
Definition leaf_inside (matrix : Matrix4) (frustumPlanes : gmap string Plane)
    (position : Coords) : Prop :=
  ∃ point, Matrix4_transform matrix position = Ok point
           ∧ inside_planes frustumPlanes (point ++ [0]).

(** [matrix.transform] accepts every leaf position of the structure. *)
Definition transformable (matrix : Matrix4) (coords : Coords) : bool :=
  forallb
    (fun p =>
       match Matrix4_transform matrix p with
       | Ok _ => true
       | Throw _ => false
       end)
    (leaf_positions coords).

(** [tight] has the planes of [planes], each with the same normal and a
    distance that is not larger. *)
Definition tightened (tight planes : gmap string Plane) : Prop :=
  ∀ name,
    match tight !! name, planes !! name with
    | Some p', Some p => normal p' = normal p ∧ distance p' ≤ distance p
    | None, None => True
    | _, _ => False
    end.

(** Every distance of the set lowered by [delta]. *)
Definition tighten (delta : Qc) (planes : gmap string Plane)
  : gmap string Plane :=
  (fun p => {| normal := normal p; distance := distance p - delta |})
    <$> planes.

End FrustumSpec.

(** ** De-duplication *)

(** The identities of the features of a list, when all of them resolve. *)
Fixpoint resolve_all (uniqueIdProperty : string) (features : list Feature)
  : result (list JsValue) :=
  match features with
  | [] => Ok []
  | f :: rest =>
      v ← getFeatureUniqueId f uniqueIdProperty;
      vs ← resolve_all uniqueIdProperty rest;
      Ok (v :: vs)
  end.

(** No two positions of the list hold features of one defined (other than
    [-1]) identity. *)
Definition defined_ids_unique (uniqueIdProperty : string)
    (features : list Feature) : Prop :=
  ∀ i j fi fj v,
    features !! i = Some fi → features !! j = Some fj →
    getFeatureUniqueId fi uniqueIdProperty = Ok v →
    getFeatureUniqueId fj uniqueIdProperty = Ok v →
    v ≠ minus_one →
    i = j.

(** The collector in the words of the specification: position [i] is kept
    when its identity is the sentinel, or occurs at no earlier position. *)
Definition kept (ids : list JsValue) (i : nat) : bool :=
  match ids !! i with
  | Some v => bool_decide (v = minus_one) || bool_decide (v ∉ take i ids)
  | None => false
  end.

(** The elements of [xs] at the positions [i, i+1, ...] that [keep]
    selects, in their order. *)
Fixpoint select_from {A : Type} (keep : nat → bool) (i : nat) (xs : list A)
  : list A :=
  match xs with
  | [] => []
  | x :: xs' =>
      if keep i then x :: select_from keep (S i) xs'
      else select_from keep (S i) xs'
  end.

(** What the two loops maintain: the features collected so far have
    pairwise different defined identities, all of them recorded in the
    [featureCache]. *)
Definition dedup_inv (p : string) (acc : list Feature)
    (cache : gset JsValue) : Prop :=
  defined_ids_unique p acc
  ∧ ∀ f v, f ∈ acc → getFeatureUniqueId f p = Ok v → v ≠ minus_one →
           v ∈ cache.

Section ViewportSpec.
Context `{MathGL}.

(** The placement transform that [getViewportFeatures] builds for a tile. *)
Definition placement (tile : Tile) : Matrix4 :=
  Matrix4_scale (Matrix4_translate Matrix4_new (getCoordinateOrigin tile))
    (getModelMatrixScale tile).

(** A feature as the decoder delivers it: its identity resolves, and its
    geometry has well-nested coordinates that the transform accepts. *)
Definition decoded_feature (matrix : Matrix4) (uniqueIdProperty : string)
    (f : Feature) : bool :=
  match getFeatureUniqueId f uniqueIdProperty, geometry f with
  | Ok _, Some g =>
      match coordinates g with
      | Some coords => well_nested coords && transformable matrix coords
      | None => false
      end
  | _, _ => false
  end.

(** Every feature of every decoded tile is a decoded feature. *)
Definition decoded_tiles (uniqueIdProperty : string)
    (selectedTiles : list Tile) : bool :=
  forallb
    (fun tile =>
       match tile_data tile with
       | Some data =>
           forallb (decoded_feature (placement tile) uniqueIdProperty) data
       | None => true
       end)
    selectedTiles.

End ViewportSpec.

(** ** Zoom bounds *)

Definition Qc_max (a b : Qc) : Qc := if bool_decide (a < b) then b else a.

Definition Qc_min (a b : Qc) : Qc := if bool_decide (b < a) then b else a.

(** ** Further notions on coordinates and tiles *)

(** An array whose first element is a number. *)
Definition is_position (coords : Coords) : bool :=
  match coords with
  | CArr (CNum _ :: _) => true
  | _ => false
  end.

(** The picking results that wrap the features of a list. *)
Definition picked (features : list Feature) : list PickingInfo :=
  Build_PickingInfo <$> features.

(** The features of the decoded tiles, tile after tile. *)
Definition decoded_data (selectedTiles : list Tile) : list Feature :=
  concat (default [] ∘ tile_data <$> selectedTiles).

(** The tile is decoded: its [data] is an array. *)
Definition is_decoded (tile : Tile) : bool :=
  match tile_data tile with
  | Some _ => true
  | None => false
  end.

Section ViewportNotions.
Context `{MathGL}.

(** The frustum test of [getViewportFeatures] on the feature answers
    true. *)
Definition inside_frustum (matrix : Matrix4)
    (frustumPlanes : gmap string Plane) (f : Feature) : bool :=
  match geometry f with
  | Some g =>
      match coordinates g with
      | Some coords =>
          match checkIfCoordsAreInsideFrustum matrix frustumPlanes coords with
          | Ok b => b
          | Throw _ => false
          end
      | None => false
      end
  | None => false
  end.

(** Every feature of the decoded tiles has an identity other than [-1] and
    is inside the frustum under the placement of its tile. *)
Definition all_identified_and_inside (frustumPlanes : gmap string Plane)
    (uniqueIdProperty : string) (selectedTiles : list Tile) : bool :=
  forallb
    (fun tile =>
       match tile_data tile with
       | Some data =>
           forallb
             (fun f =>
                match getFeatureUniqueId f uniqueIdProperty with
                | Ok v =>
                    negb (strict_equals v minus_one)
                    && inside_frustum (placement tile) frustumPlanes f
                | Throw _ => false
                end)
             data
       | None => true
       end)
    selectedTiles.

End ViewportNotions.

(** ** Doubles and the exact placement *)

(** The rational is a double: [m * 2^e] with a significand of at most 53
    bits and an exponent in the range of binary64. *)
Definition binary64 (q : Qc) : Prop :=
  ∃ m e : Z, (Z.abs m ≤ 2 ^ 53)%Z ∧ (-1074 ≤ e ≤ 970)%Z
             ∧ q = Z2Qc m * pow2 e.

(** The placement scale and origin in exact arithmetic, in the words of
    the specification: [(W/2^z, −W/2^z, 1)] and
    [(W·x/2^z, W·(1 − y/2^z), 0)]. *)
Definition exact_scale (z : Z) : list Qc :=
  [WORLD_SIZE / pow2 z; - (WORLD_SIZE / pow2 z); 1].

Definition exact_origin (x y z : Z) : list Qc :=
  [WORLD_SIZE * Z2Qc x / pow2 z;
   WORLD_SIZE * (1 - Z2Qc y / pow2 z);
   0].

(** The tile is one of the grid of its zoom level, at a zoom level at
    which the placement is computed without rounding. *)
Definition grid_tile (tile : Tile) : Prop :=
  (0 ≤ tile_z tile ≤ 53)%Z
  ∧ (0 ≤ tile_x tile ≤ 2 ^ tile_z tile)%Z
  ∧ (0 ≤ tile_y tile ≤ 2 ^ tile_z tile)%Z.

(** The structure and everything nested in it. *)
Fixpoint parts (coords : Coords) : list Coords :=
  coords ::
  match coords with
  | CNum _ => []
  | CArr items => flat_map parts items
  end.

(** ** Scenario data *)

(** A TileJSON document declaring the zoom range 2..10, a loader that
    answers it, and props asking for the range 0..14. *)
Definition doc_2_10 : TileJSON :=
  {| tilejson := VString "2.2.0";
     tiles := Some ["https://tiles.example/{z}/{x}/{y}.mvt"];
     minzoom := VNumber (Fin (Z2Qc 2));
     maxzoom := VNumber (Fin (Z2Qc 10)) |}.

Definition props_0_14 : Props :=
  {| props_data := DataString "https://tiles.example/tile.json";
     props_minZoom := PNumber (Fin (Z2Qc 0));
     props_maxZoom := PNumber (Fin (Z2Qc 14)) |}.

Definition initial_state : State :=
  {| state_data := DataNull;
     state_tileJSON := None;
     state_minZoom := PUndefined;
     state_maxZoom := PUndefined |}.

(** A point feature at [(x, y)] of the tile, with or without an [id]. *)
Definition point_feature (id : option JsValue) (x y : Qc) : Feature :=
  {| fid := id;
     properties := Some ∅;
     geometry :=
       Some {| geometry_type := "Point";
               coordinates := Some (CArr [CNum x; CNum y]) |} |}.

Definition anonymous_1 : Feature := point_feature None 0 0.
Definition anonymous_2 : Feature := point_feature None (Z2Qc 1) (Z2Qc 1).

Definition numbered_1 : Feature :=
  point_feature (Some (VNumber (Fin (Z2Qc 1)))) 0 0.
Definition numbered_1_again : Feature :=
  point_feature (Some (VNumber (Fin (Z2Qc 1)))) (Z2Qc 1) (Z2Qc 1).

Definition river_west : Feature :=
  point_feature (Some (VString "river-7")) (Z2Qc 1) 0.
Definition river_east : Feature :=
  point_feature (Some (VString "river-7")) 0 0.

(** One tile holding two features without identity. *)
Definition tile_anonymous : Tile :=
  {| tile_x := 0; tile_y := 0; tile_z := 0;
     tile_data := Some [anonymous_1; anonymous_2] |}.

(** Two neighbouring tiles that both hold the feature "river-7". *)
Definition tiles_river : list Tile :=
  [ {| tile_x := 0; tile_y := 0; tile_z := 1;
       tile_data := Some [river_west] |};
    {| tile_x := 1; tile_y := 0; tile_z := 1;
       tile_data := Some [river_east] |} ].

(** The hit-test results [[{id: 1}, {id: 1}, {no id}]]. *)
Definition picked_scenario : list PickingInfo :=
  [ {| object := numbered_1 |};
    {| object := numbered_1_again |};
    {| object := anonymous_1 |} ].

(** The frustum with the single plane of normal [(1, 0, 0)] at distance
    [d], for the concrete [math.gl]. *)
Definition plane_x (d : Qc) : gmap string (@Plane Affine.mathgl) :=
  {[ "right" := @Build_Plane Affine.mathgl (1, 0, 0) d ]}.

(** The coordinates of a point at the local origin, and of a line. *)
Definition point_origin : Coords := CArr [CNum 0; CNum 0].

Definition line_diagonal : Coords :=
  CArr [CArr [CNum 0; CNum 0]; CArr [CNum 1; CNum 1]].

(** A feature [{properties: {id: "a"}}] without a top-level [id]. *)
Definition feature_a : Feature :=
  {| fid := None;
     properties := Some {[ "id" := VString "a" ]};
     geometry := None |}.

(** A feature without [properties] and without [id]. *)
Definition feature_bare : Feature :=
  {| fid := None; properties := None; geometry := None |}.

(** A decoded tile to hover over: a feature without identity, then two
    features of identity 1. *)
Definition tile_hover : Tile :=
  {| tile_x := 0; tile_y := 0; tile_z := 0;
     tile_data := Some [anonymous_1; numbered_1; numbered_1_again] |}.

(** * Properties *)

(** ** Identity resolution *)

Lemma truthy_string_nonempty (s : string) :
  truthy_string s = true ↔ s ≠ EmptyString.
Proof. destruct s; simpl; split; congruence. Qed.

Lemma strict_equals_minus_one (v : JsValue) :
  strict_equals v minus_one = true ↔ v = minus_one.
Proof.
  unfold strict_equals, minus_one.
  destruct v as [| |b|[q| |s]|s|r]; rewrite ?bool_decide_eq_true;
    split; congruence.
Qed.

Lemma strict_equals_minus_one_false (v : JsValue) :
  strict_equals v minus_one = false ↔ v ≠ minus_one.
Proof.
  rewrite <- strict_equals_minus_one. destruct (strict_equals v minus_one);
    split; congruence.
Qed.

(** C3. With a non-empty configured property name the identity of a feature
    is [feature.properties[name]] ([undefined] when the map has no such
    key); with an empty name it is the top-level [id] when the feature has
    that key, and the sentinel [-1] otherwise.  Equal inputs give equal
    identities. *)
Theorem getFeatureUniqueId_resolution
    (feature : Feature) (uniqueIdProperty : string) :
  (uniqueIdProperty ≠ EmptyString →
   ∀ props, properties feature = Some props →
     getFeatureUniqueId feature uniqueIdProperty
     = Ok (default VUndefined (props !! uniqueIdProperty)))
  ∧ (uniqueIdProperty = EmptyString →
     ∀ v, fid feature = Some v →
       getFeatureUniqueId feature uniqueIdProperty = Ok v)
  ∧ (uniqueIdProperty = EmptyString → fid feature = None →
     getFeatureUniqueId feature uniqueIdProperty = Ok minus_one)
  ∧ (∀ feature' uniqueIdProperty',
       feature' = feature → uniqueIdProperty' = uniqueIdProperty →
       getFeatureUniqueId feature' uniqueIdProperty'
       = getFeatureUniqueId feature uniqueIdProperty).
Proof.
  unfold getFeatureUniqueId. repeat split.
  - intros Hne props Hprops.
    apply truthy_string_nonempty in Hne. rewrite Hne, Hprops. reflexivity.
  - intros -> v Hv. simpl. rewrite Hv. reflexivity.
  - intros -> Hv. simpl. rewrite Hv. reflexivity.
  - intros feature' uniqueIdProperty' -> ->. reflexivity.
Qed.

Lemma getFeatureUniqueId_resolution_witness :
  getFeatureUniqueId feature_a "id" = Ok (VString "a")
  ∧ getFeatureUniqueId feature_a EmptyString = Ok minus_one.
Proof.
  split.
  - rewrite (proj1 (getFeatureUniqueId_resolution feature_a "id")
               ltac:(discriminate) _ eq_refl).
    reflexivity.
  - apply (proj1 (proj2 (proj2
             (getFeatureUniqueId_resolution feature_a EmptyString))));
      reflexivity.
Defined.

(** C9, as stated, fails: on a feature without a [properties] map and a
    non-empty configured name the resolver raises. *)
Lemma getFeatureUniqueId_may_throw :
  ¬ (∀ (feature : Feature) (uniqueIdProperty : string),
       ∃ v, getFeatureUniqueId feature uniqueIdProperty = Ok v).
Proof.
  intros Hall. destruct (Hall feature_bare "id") as [v Hv]. discriminate Hv.
Qed.

(** C9, amended.  The resolver returns a value exactly when the configured
    name is empty or the feature has a [properties] map; in the remaining
    case it raises a [TypeError]. *)
Theorem getFeatureUniqueId_returns_iff
    (feature : Feature) (uniqueIdProperty : string) :
  (uniqueIdProperty = EmptyString ∨ is_Some (properties feature)
   ↔ ∃ v, getFeatureUniqueId feature uniqueIdProperty = Ok v)
  ∧ (uniqueIdProperty ≠ EmptyString ∧ properties feature = None
     ↔ ∃ msg, getFeatureUniqueId feature uniqueIdProperty
              = Throw (TypeError msg)).
Proof.
  unfold getFeatureUniqueId.
  destruct uniqueIdProperty as [|c s]; simpl.
  - split; split.
    + intros _. destruct (fid feature); eauto.
    + intros _. by left.
    + intros [Hne _]. congruence.
    + intros [msg Hm]. destruct (fid feature); discriminate.
  - destruct (properties feature) as [props|]; split; split.
    + intros _. eauto.
    + intros _. right. eauto.
    + intros [_ Hn]. discriminate.
    + intros [msg Hm]. discriminate.
    + intros [He|[x Hx]]; discriminate.
    + intros [v Hv]. discriminate.
    + intros _. eauto.
    + intros _. split; [discriminate | reflexivity].
Qed.

Lemma getFeatureUniqueId_returns_iff_witness :
  ∃ v, getFeatureUniqueId feature_bare EmptyString = Ok v.
Proof.
  apply (proj1 (proj1 (getFeatureUniqueId_returns_iff feature_bare
                         EmptyString))).
  left. reflexivity.
Defined.

(** ** Tile placement *)

Lemma round_half_even_exact (c d : Z) :
  (0 < d)%Z → round_half_even (c * d) d = c.
Proof.
  intros Hd. unfold round_half_even.
  rewrite Z.mod_mul, Z.div_mul by lia.
  destruct d as [|p|p]; [lia | reflexivity | lia].
Qed.

Lemma round64_pos_exact (n d m k : Z) :
  (0 < d)%Z → (0 < m ≤ 2 ^ 53)%Z → (0 ≤ k ≤ 2044)%Z →
  (n * 2 ^ 1074 = m * 2 ^ k * d)%Z →
  round64_pos n d = Fin (Z2Qc (m * 2 ^ k) / Z2Qc (2 ^ 1074)).
Proof.
  intros Hd [Hm0 Hm1] [Hk0 Hk1] Heq. unfold round64_pos.
  rewrite Heq, Z.div_mul by lia.
  set (s := Z.max 0 (Z.log2 (m * 2 ^ k) + 1 - 53)).
  assert (Hs0 : (0 ≤ s)%Z) by (unfold s; lia).
  assert (Hc : ∃ c, (m * 2 ^ k = c * 2 ^ s)%Z).
  { assert (Hlog : Z.log2 (m * 2 ^ k) = (k + Z.log2 m)%Z)
      by (apply Z.log2_mul_pow2; lia).
    destruct (Z.eq_dec m (2 ^ 53)%Z) as [->|Hne].
    - rewrite Z.log2_pow2 in Hlog by lia.
      exists (2 ^ (53 + k - s))%Z.
      rewrite <- !Z.pow_add_r by lia. f_equal. lia.
    - assert (Z.log2 m < 53)%Z by (apply Z.log2_lt_pow2; lia).
      exists (m * 2 ^ (k - s))%Z.
      rewrite <- Z.mul_assoc, <- Z.pow_add_r by lia. do 2 f_equal. lia. }
  destruct Hc as [c Hc].
  replace (m * 2 ^ k * d)%Z with (c * (d * 2 ^ s))%Z by (rewrite Hc; ring).
  rewrite round_half_even_exact by (apply Z.mul_pos_pos; lia).
  rewrite <- Hc.
  assert (Hlt : (m * 2 ^ k < 2 ^ 2098)%Z).
  { apply Z.le_lt_trans with (2 ^ 53 * 2 ^ 2044)%Z.
    - apply Z.mul_le_mono_nonneg; try lia.
      apply Z.pow_le_mono_r; lia.
    - rewrite <- Z.pow_add_r by lia. apply Z.pow_lt_mono_r; lia. }
  apply Z.leb_gt in Hlt. by rewrite Hlt.
Qed.

Lemma Z2Qc_plus (a b : Z) : Z2Qc (a + b) = Z2Qc a + Z2Qc b.
Proof.
  unfold Z2Qc. apply Qc_is_canon. cbn [this Q2Qc Qcplus Qcmult].
  rewrite !Qred_correct, inject_Z_plus. reflexivity.
Qed.

Lemma Z2Qc_mult (a b : Z) : Z2Qc (a * b) = Z2Qc a * Z2Qc b.
Proof.
  unfold Z2Qc. apply Qc_is_canon. cbn [this Q2Qc Qcplus Qcmult].
  rewrite !Qred_correct, inject_Z_mult. reflexivity.
Qed.

Lemma Z2Qc_opp (a : Z) : Z2Qc (- a) = - Z2Qc a.
Proof.
  unfold Z2Qc. apply Qc_is_canon. cbn [this Q2Qc Qcopp].
  rewrite !Qred_correct, inject_Z_opp. reflexivity.
Qed.

Lemma Z2Qc_le (a b : Z) : (a ≤ b)%Z → Z2Qc a ≤ Z2Qc b.
Proof.
  intros Hab. unfold Z2Qc, Qcle. cbn [this Q2Qc]. rewrite !Qred_correct.
  rewrite <- Zle_Qle. exact Hab.
Qed.

Lemma pow2_pos (z : Z) : 0 < pow2 z.
Proof.
  assert (Hq : (0 < (2 # 1) ^ z)%Q) by (apply Qpower_0_lt; reflexivity).
  unfold pow2, Qclt. cbn [this Q2Qc]. rewrite !Qred_correct. exact Hq.
Qed.

Lemma pow2_nonzero (z : Z) : pow2 z ≠ 0.
Proof.
  intros Hz. pose proof (pow2_pos z) as Hp. rewrite Hz in Hp.
  by apply Qclt_not_eq in Hp.
Qed.

Lemma pow2_plus (a b : Z) : pow2 (a + b) = pow2 a * pow2 b.
Proof.
  unfold pow2. apply Qc_is_canon. cbn [this Q2Qc Qcmult].
  rewrite !Qred_correct. rewrite Qpower_plus by discriminate.
  reflexivity.
Qed.

Lemma pow2_nonneg (z : Z) : (0 ≤ z)%Z → pow2 z = Z2Qc (2 ^ z).
Proof.
  intros Hz. unfold pow2, Z2Qc. apply Q2Qc_eq_iff.
  symmetry. apply (Zpower_Qpower 2 z Hz).
Qed.

Lemma scaled_numerator (m e : Z) :
  (-1074 ≤ e)%Z →
  let q := Z2Qc m * pow2 e in
  (Qnum q * 2 ^ 1074 = m * 2 ^ (e + 1074) * Zpos (Qden q))%Z.
Proof.
  intros He q.
  assert (Hq : q * Z2Qc (2 ^ 1074) = Z2Qc (m * 2 ^ (e + 1074))).
  { unfold q. rewrite Z2Qc_mult, <- !pow2_nonneg, pow2_plus by lia. ring. }
  apply (f_equal this) in Hq. unfold Z2Qc in Hq.
  cbn [this Q2Qc Qcmult] in Hq.
  assert (Hq' : (this q * inject_Z (2 ^ 1074)
                 == inject_Z (m * 2 ^ (e + 1074)))%Q).
  { rewrite <- (Qred_correct (inject_Z (m * _))), <- Hq.
    rewrite !Qred_correct. reflexivity. }
  unfold Qeq in Hq'. cbn [Qnum Qden Qmult inject_Z] in Hq'.
  rewrite Pos.mul_1_r, Z.mul_1_r in Hq'. exact Hq'.
Qed.

Lemma round64_exact (q : Qc) : binary64 q → round64 q = Fin q.
Proof.
  intros (m & e & Hm & [He0 He1] & ->).
  pose proof (scaled_numerator m e He0) as Hsc. cbv zeta in Hsc.
  set (q := Z2Qc m * pow2 e) in *.
  rewrite <- Z.mul_assoc in Hsc.
  assert (Hval : ∀ m', Z2Qc (m' * 2 ^ (e + 1074)) / Z2Qc (2 ^ 1074)
                       = Z2Qc m' * pow2 e).
  { intros m'. rewrite Z2Qc_mult, <- !pow2_nonneg, pow2_plus by lia.
    field. apply pow2_nonzero. }
  assert (Hpos : (0 < 2 ^ (e + 1074) * Zpos (Qden q))%Z).
  { apply Z.mul_pos_pos; [apply Z.pow_pos_nonneg; lia | lia]. }
  assert (HA : (0 < 2 ^ 1074)%Z) by (apply Z.pow_pos_nonneg; lia).
  unfold round64. destruct (Qnum q) as [|n|n] eqn:Hn.
  - assert (Hm0 : m = 0%Z).
    { rewrite Z.mul_0_l in Hsc. symmetry in Hsc.
      apply Z.mul_eq_0 in Hsc as [Hsc|Hsc]; [exact Hsc | lia]. }
    subst m. f_equal. unfold q. change (Z2Qc 0) with 0. ring.
  - assert (Hm0 : (0 < m)%Z).
    { apply (Z.mul_pos_cancel_r _ _ Hpos). rewrite <- Hsc.
      apply Z.mul_pos_pos; lia. }
    rewrite (round64_pos_exact _ _ m (e + 1074)); try lia.
    by rewrite Hval.
  - assert (Hm0 : (0 < - m)%Z).
    { apply (Z.mul_pos_cancel_r _ _ Hpos).
      rewrite Z.mul_opp_l, <- Hsc, <- Z.mul_opp_l.
      apply Z.mul_pos_pos; lia. }
    rewrite (round64_pos_exact _ _ (- m) (e + 1074)); try lia.
    simpl. rewrite Hval, Z2Qc_opp. f_equal. unfold q. ring.
Qed.

Lemma binary64_pow2 (e : Z) : (-1074 ≤ e ≤ 1023)%Z → binary64 (pow2 e).
Proof.
  intros He. destruct (Z_le_gt_dec e 970) as [Hle|Hgt].
  - exists 1%Z, e. split; [simpl; lia|]. split; [lia|].
    change (Z2Qc 1) with 1. ring.
  - exists (2 ^ (e - 970))%Z, 970%Z. split.
    + rewrite Z.abs_eq by (apply Z.pow_nonneg; lia).
      apply Z.pow_le_mono_r; lia.
    + split; [lia|]. rewrite <- pow2_nonneg, <- pow2_plus by lia.
      f_equal. lia.
Qed.

Lemma binary64_Z2Qc_pow2 (m e : Z) :
  (Z.abs m ≤ 2 ^ 53)%Z → (-1074 ≤ e ≤ 970)%Z →
  round64 (Z2Qc m * pow2 e) = Fin (Z2Qc m * pow2 e).
Proof. intros Hm He. apply round64_exact. by exists m, e. Qed.

Lemma Math_pow2_exact (z : Z) :
  (-1074 ≤ z ≤ 1023)%Z → Math_pow2 z = Fin (pow2 z).
Proof. intros Hz. apply round64_exact, binary64_pow2, Hz. Qed.

Lemma WORLD_SIZE_pow2 : WORLD_SIZE = pow2 9.
Proof. apply Qc_is_canon. reflexivity. Qed.

Lemma js_div_pow2 (x : Qc) (z : Z) :
  js_div (Fin x) (Fin (pow2 z)) = round64 (x / pow2 z).
Proof.
  unfold js_div.
  by rewrite (bool_decide_eq_false_2 _ (pow2_nonzero z)).
Qed.

Lemma pow2_inv (z : Z) : / pow2 z = pow2 (- z).
Proof.
  assert (Hone : pow2 z * pow2 (- z) = 1).
  { rewrite <- pow2_plus. by replace (z + - z)%Z with 0%Z by lia. }
  transitivity (/ pow2 z * (pow2 z * pow2 (- z))).
  - rewrite Hone. ring.
  - field. apply pow2_nonzero.
Qed.

Lemma getModelMatrixScale_exact (tile : Tile) :
  (-1014 ≤ tile_z tile ≤ 1023)%Z →
  getModelMatrixScale tile = Fin <$> exact_scale (tile_z tile).
Proof.
  intros Hz. unfold getModelMatrixScale, exact_scale.
  rewrite Math_pow2_exact by lia. rewrite js_div_pow2.
  assert (Hs : WORLD_SIZE / pow2 (tile_z tile) = pow2 (9 - tile_z tile)).
  { unfold Qcdiv. rewrite pow2_inv, WORLD_SIZE_pow2, <- pow2_plus.
    reflexivity. }
  rewrite Hs, (round64_exact _ (binary64_pow2 (9 - tile_z tile) ltac:(lia))).
  reflexivity.
Qed.

Lemma getCoordinateOrigin_exact (tile : Tile) :
  grid_tile tile →
  getCoordinateOrigin tile
  = Fin <$> exact_origin (tile_x tile) (tile_y tile) (tile_z tile).
Proof.
  intros ([Hz0 Hz1] & [Hx0 Hx1] & [Hy0 Hy1]).
  unfold getCoordinateOrigin, exact_origin, number_of_Z.
  set (x := tile_x tile) in *. set (y := tile_y tile) in *.
  set (z := tile_z tile) in *.
  assert (Hpow : (2 ^ z ≤ 2 ^ 53)%Z) by (apply Z.pow_le_mono_r; lia).
  assert (Hone : ∀ m, Z2Qc m = Z2Qc m * pow2 0).
  { intros m. change (pow2 0) with 1. ring. }
  rewrite Math_pow2_exact by lia.
  (* the x offset *)
  rewrite (Hone x), binary64_Z2Qc_pow2 by lia. rewrite <- (Hone x).
  cbn [js_mul].
  assert (Hx9 : WORLD_SIZE * Z2Qc x = Z2Qc x * pow2 9)
    by (rewrite WORLD_SIZE_pow2; ring).
  rewrite Hx9, binary64_Z2Qc_pow2 by lia.
  rewrite js_div_pow2.
  assert (Hxz : Z2Qc x * pow2 9 / pow2 z = Z2Qc x * pow2 (9 - z)).
  { unfold Qcdiv. rewrite pow2_inv, <- Qcmult_assoc, <- pow2_plus.
    do 2 f_equal. }
  rewrite Hxz, binary64_Z2Qc_pow2 by lia.
  (* the y offset *)
  rewrite (Hone y), binary64_Z2Qc_pow2 by lia. rewrite <- (Hone y).
  rewrite js_div_pow2.
  assert (Hyz : Z2Qc y / pow2 z = Z2Qc y * pow2 (- z)).
  { unfold Qcdiv. by rewrite pow2_inv. }
  rewrite Hyz, binary64_Z2Qc_pow2 by lia.
  cbn [js_sub].
  assert (Hsub : 1 - Z2Qc y * pow2 (- z) = Z2Qc (2 ^ z - y) * pow2 (- z)).
  { unfold Z.sub. rewrite Z2Qc_plus, Z2Qc_opp, <- pow2_nonneg by lia.
    rewrite Qcmult_plus_distr_l, <- pow2_plus.
    replace (z + - z)%Z with 0%Z by lia. change (pow2 0) with 1. ring. }
  rewrite Hsub, binary64_Z2Qc_pow2 by lia.
  cbn [js_mul].
  assert (Hw : WORLD_SIZE * (Z2Qc (2 ^ z - y) * pow2 (- z))
               = Z2Qc (2 ^ z - y) * pow2 (9 - z)).
  { rewrite WORLD_SIZE_pow2.
    replace (9 - z)%Z with (9 + - z)%Z by lia. rewrite pow2_plus. ring. }
  rewrite Hw, binary64_Z2Qc_pow2 by lia.
  reflexivity.
Qed.

(** C6, as stated, fails: the placement is computed in doubles.  At tile
    (0, 1, 60) the difference [1 - 1/2^60] rounds to 1, and the second
    component of the origin is 512, not [512·(1 − 1/2^60)]. *)
Lemma placement_rounds_at_zoom_60 :
  ¬ (∀ tile : Tile,
       (0 ≤ tile_z tile)%Z →
       let W := Z2Qc 512 in
       let pow := Z2Qc (2 ^ tile_z tile) in
       getModelMatrixScale tile = [Fin (W / pow); Fin (- (W / pow)); Fin 1]
       ∧ getCoordinateOrigin tile
         = [Fin (W * Z2Qc (tile_x tile) / pow);
            Fin (W * (1 - Z2Qc (tile_y tile) / pow));
            Fin 0]).
Proof.
  intros Hall.
  destruct (Hall {| tile_x := 0; tile_y := 1; tile_z := 60;
                    tile_data := None |}) as [_ Horigin]; [simpl; lia|].
  assert (Hcode : getCoordinateOrigin
                    {| tile_x := 0; tile_y := 1; tile_z := 60;
                       tile_data := None |} !! 1%nat
                  = Some (Fin (Z2Qc 512))).
  { vm_compute. do 2 f_equal. apply Qc_is_canon. reflexivity. }
  rewrite Horigin in Hcode. simpl in Hcode.
  apply (f_equal (fun o => match o with
                           | Some (Fin q) => this q
                           | _ => 0%Q
                           end)) in Hcode.
  vm_compute in Hcode. discriminate Hcode.
Qed.

(** C6, amended.  For a tile of the grid at a zoom level [0 ≤ z ≤ 53]
    ([0 ≤ x, y ≤ 2^z]), where the double arithmetic of the code is exact,
    the placement scale is [(W/2^z, −W/2^z, 1)], its second component the
    negation of the first, and the placement origin is
    [(W·x/2^z, W·(1 − y/2^z), 0)], with [W = 512]; tile (1,1,1) has scale
    [(256, −256, 1)] and origin [(256, 256, 0)]. *)
Theorem placement_scale_and_origin (tile : Tile) :
  (0 ≤ tile_z tile ≤ 53)%Z →
  (0 ≤ tile_x tile ≤ 2 ^ tile_z tile)%Z →
  (0 ≤ tile_y tile ≤ 2 ^ tile_z tile)%Z →
  let W := Z2Qc 512 in
  let pow := Z2Qc (2 ^ tile_z tile) in
  getModelMatrixScale tile = [Fin (W / pow); Fin (- (W / pow)); Fin 1]
  ∧ getCoordinateOrigin tile
    = [Fin (W * Z2Qc (tile_x tile) / pow);
       Fin (W * (1 - Z2Qc (tile_y tile) / pow));
       Fin 0]
  ∧ (tile_x tile = 1%Z → tile_y tile = 1%Z → tile_z tile = 1%Z →
     getModelMatrixScale tile
     = [Fin (Z2Qc 256); Fin (Z2Qc (-256)); Fin (Z2Qc 1)]
     ∧ getCoordinateOrigin tile
       = [Fin (Z2Qc 256); Fin (Z2Qc 256); Fin (Z2Qc 0)]).
Proof.
  intros Hz Hx Hy W pow.
  rewrite getModelMatrixScale_exact by lia.
  rewrite getCoordinateOrigin_exact by (repeat split; lia).
  unfold exact_scale, exact_origin.
  rewrite (pow2_nonneg (tile_z tile)) by lia. fold pow.
  change WORLD_SIZE with W.
  split; [reflexivity | split; [reflexivity |]].
  intros Hx1 Hy1 Hz1. subst pow W. rewrite Hx1, Hy1, Hz1.
  split; simpl; repeat f_equal; apply Qc_is_canon; reflexivity.
Qed.

Lemma placement_scale_and_origin_witness :
  getModelMatrixScale
    {| tile_x := 1; tile_y := 1; tile_z := 1; tile_data := None |}
  = [Fin (Z2Qc 256); Fin (Z2Qc (-256)); Fin (Z2Qc 1)]
  ∧ getCoordinateOrigin
      {| tile_x := 1; tile_y := 1; tile_z := 1; tile_data := None |}
    = [Fin (Z2Qc 256); Fin (Z2Qc 256); Fin (Z2Qc 0)].
Proof.
  apply (placement_scale_and_origin
           {| tile_x := 1; tile_y := 1; tile_z := 1; tile_data := None |});
    simpl; (lia || reflexivity).
Defined.

(** ** Frustum containment *)

Lemma Coords_nested_ind (P : Coords → Prop) :
  (∀ q, P (CNum q)) →
  (∀ items, Forall P items → P (CArr items)) →
  ∀ coords, P coords.
Proof.
  intros Hnum Harr. fix IH 1. intros [q|items].
  - apply Hnum.
  - apply Harr. induction items as [|c cs IHcs]; constructor.
    + apply IH.
    + apply IHcs.
Qed.

Lemma Array_some_spec {A : Type} (callback : A → result bool)
    (Q : A → Prop) (xs : list A) :
  (∀ x, x ∈ xs → ∃ b, callback x = Ok b ∧ (b = true ↔ Q x)) →
  ∃ b, Array_some callback xs = Ok b ∧ (b = true ↔ ∃ x, x ∈ xs ∧ Q x).
Proof.
  induction xs as [|x xs IHxs]; intros Hcb; simpl.
  - exists false. split; [reflexivity|]. split; [discriminate|].
    intros (x & Hx & _). inversion Hx.
  - destruct (Hcb x) as (b & Hb & Hiff); [left|]. rewrite Hb.
    destruct b.
    + exists true. split; [reflexivity|]. split; [|reflexivity].
      intros _. exists x. split; [left | by apply Hiff].
    + destruct IHxs as (b' & Hb' & Hiff').
      { intros y Hy. apply Hcb. by right. }
      exists b'. split; [exact Hb'|]. rewrite Hiff'. split.
      * intros (y & Hy & HQ). exists y. split; [by right | exact HQ].
      * intros (y & Hy & HQ). apply elem_of_cons in Hy as [->|Hy].
        -- apply Hiff in HQ. discriminate.
        -- eauto.
Qed.

Lemma Array_some_ext_in {A : Type} (f g : A → result bool) (xs : list A) :
  (∀ x, x ∈ xs → f x = g x) → Array_some f xs = Array_some g xs.
Proof.
  induction xs as [|x xs IHxs]; intros Hfg; simpl; [reflexivity|].
  rewrite (Hfg x) by left. rewrite IHxs; [reflexivity|].
  intros y Hy. apply Hfg. by right.
Qed.

Lemma Array_some_mono {A : Type} (f g : A → result bool) (xs : list A) :
  (∀ x, x ∈ xs →
     (f x = Ok true → g x = Ok true)
     ∧ (f x = Ok false → ∃ b, g x = Ok b)) →
  (Array_some f xs = Ok true → Array_some g xs = Ok true)
  ∧ (Array_some f xs = Ok false → ∃ b, Array_some g xs = Ok b).
Proof.
  induction xs as [|x xs IHxs]; intros Hfg; simpl.
  - split; [discriminate | eauto].
  - destruct (Hfg x) as [Ht Hf]; [left|].
    destruct IHxs as [IHt IHf].
    { intros y Hy. apply Hfg. by right. }
    destruct (f x) as [[|]|e].
    + rewrite Ht by reflexivity. split; eauto.
    + destruct Hf as [b Hb]; [reflexivity|]. rewrite Hb.
      destruct b; [split; eauto | split; assumption].
    + split; discriminate.
Qed.

Section FrustumProperties.
Context `{MathGL}.

Lemma coordIsInPlanes_spec (frustumPlanes : gmap string Plane)
    (point : list Qc) :
  coordIsInPlanes frustumPlanes point = true
  ↔ inside_planes frustumPlanes point.
Proof.
  unfold coordIsInPlanes, inside_planes, Object_keys.
  rewrite forallb_forall. split.
  - intros Hall name p Hp.
    specialize (Hall name). rewrite Hp in Hall.
    eapply bool_decide_eq_true_1, Hall.
    apply list_elem_of_In, list_elem_of_fmap.
    exists (name, p). split; [reflexivity|].
    by apply elem_of_map_to_list.
  - intros Hall name Hin.
    apply list_elem_of_In, list_elem_of_fmap in Hin as ([name' p] & -> & Hin).
    apply elem_of_map_to_list in Hin. simpl. rewrite Hin.
    apply bool_decide_eq_true_2. eauto.
Qed.

Lemma transformedCoordIsInPlanes_spec (matrix : Matrix4)
    (frustumPlanes : gmap string Plane) (c : Coords) (point : list Qc) :
  Matrix4_transform matrix c = Ok point →
  ∃ b, transformedCoordIsInPlanes matrix frustumPlanes c = Ok b
       ∧ (b = true ↔ leaf_inside matrix frustumPlanes c).
Proof.
  intros Ht. unfold transformedCoordIsInPlanes, leaf_inside.
  rewrite Ht. simpl. eexists. split; [reflexivity|].
  rewrite coordIsInPlanes_spec. split.
  - intros Hin. eauto.
  - intros (point' & Ht' & Hin). injection Ht' as <-. exact Hin.
Qed.

(** On the children of a well-nested array the callback of [some] is the
    function itself. *)
Lemma some_callback_well_nested (matrix : Matrix4)
    (frustumPlanes : gmap string Plane) (c : Coords) :
  match c with CArr (_ :: _) => well_nested c | _ => false end = true →
  match c with
  | CArr (CArr _ :: _) => checkIfCoordsAreInsideFrustum matrix frustumPlanes c
  | _ => transformedCoordIsInPlanes matrix frustumPlanes c
  end = checkIfCoordsAreInsideFrustum matrix frustumPlanes c.
Proof.
  destruct c as [q|[|[q|l] cs]]; try discriminate; reflexivity.
Qed.

Lemma checkIfCoordsAreInsideFrustum_spec (matrix : Matrix4)
    (frustumPlanes : gmap string Plane) (coords : Coords) :
  well_nested coords = true →
  (∀ p, p ∈ leaf_positions coords →
        ∃ point, Matrix4_transform matrix p = Ok point) →
  ∃ b, checkIfCoordsAreInsideFrustum matrix frustumPlanes coords = Ok b
       ∧ (b = true
          ↔ ∃ p, p ∈ leaf_positions coords
                 ∧ leaf_inside matrix frustumPlanes p).
Proof.
  induction coords as [q|items IH] using Coords_nested_ind;
    intros Hwf Htr; [discriminate|].
  assert (Hleaf : ∀ q cs, items = CNum q :: cs →
    ∃ b, checkIfCoordsAreInsideFrustum matrix frustumPlanes (CArr items)
         = Ok b
         ∧ (b = true
            ↔ ∃ p, p ∈ leaf_positions (CArr items)
                   ∧ leaf_inside matrix frustumPlanes p)).
  { intros q cs ->. simpl in *.
    destruct (Htr (CArr (CNum q :: cs))) as [point Hp]; [left|].
    destruct (transformedCoordIsInPlanes_spec matrix frustumPlanes _ _ Hp)
      as (b & Hb & Hiff).
    exists b. split; [exact Hb|]. rewrite Hiff. split.
    - intros Hin. eexists. split; [left | exact Hin].
    - intros (p & Hp' & Hin). apply list_elem_of_singleton in Hp' as ->.
      exact Hin. }
  assert (Hsome :
    (∀ q cs, items ≠ CNum q :: cs) →
    ∃ b, checkIfCoordsAreInsideFrustum matrix frustumPlanes (CArr items)
         = Ok b
         ∧ (b = true
            ↔ ∃ p, p ∈ leaf_positions (CArr items)
                   ∧ leaf_inside matrix frustumPlanes p)).
  { intros Hne.
    assert (Hwf' : forallb
              (fun c => match c with
                        | CArr (_ :: _) => well_nested c
                        | _ => false
                        end) items = true).
    { destruct items as [|[q|l] cs]; [reflexivity | | exact Hwf].
      exfalso. by eapply Hne. }
    assert (Hlp : leaf_positions (CArr items)
                  = flat_map leaf_positions items).
    { destruct items as [|[q|l] cs]; [reflexivity | | reflexivity].
      exfalso. by eapply Hne. }
    assert (Hck : checkIfCoordsAreInsideFrustum matrix frustumPlanes
                    (CArr items)
                  = Array_some
                      (checkIfCoordsAreInsideFrustum matrix frustumPlanes)
                      items).
    { transitivity
        (Array_some
           (fun c =>
              match c with
              | CArr (CArr _ :: _) =>
                  checkIfCoordsAreInsideFrustum matrix frustumPlanes c
              | _ => transformedCoordIsInPlanes matrix frustumPlanes c
              end) items).
      - destruct items as [|[q|l] cs]; [reflexivity | | reflexivity].
        exfalso. by eapply Hne.
      - apply Array_some_ext_in. intros c Hc.
        apply some_callback_well_nested.
        rewrite forallb_forall in Hwf'. apply Hwf'.
        by apply list_elem_of_In. }
    rewrite Hck, Hlp. rewrite Hlp in Htr.
    destruct (Array_some_spec
                (checkIfCoordsAreInsideFrustum matrix frustumPlanes)
                (fun c => ∃ p, p ∈ leaf_positions c
                               ∧ leaf_inside matrix frustumPlanes p)
                items) as (b & Hb & Hiff).
    { intros c Hc. rewrite Forall_forall in IH. apply IH.
      - exact Hc.
      - rewrite forallb_forall in Hwf'.
        specialize (Hwf' c (proj1 (list_elem_of_In _ _) Hc)).
        destruct c as [q|[|c' cs']]; try discriminate. exact Hwf'.
      - intros p Hp. apply Htr.
        apply list_elem_of_In, in_flat_map. exists c.
        split; by apply list_elem_of_In. }
    exists b. split; [exact Hb|]. rewrite Hiff. split.
    - intros (c & Hc & p & Hp & Hin). exists p. split; [|exact Hin].
      apply list_elem_of_In, in_flat_map. exists c.
      split; by apply list_elem_of_In.
    - intros (p & Hp & Hin).
      apply list_elem_of_In, in_flat_map in Hp as (c & Hc & Hp).
      exists c. split; [by apply list_elem_of_In|].
      exists p. split; [by apply list_elem_of_In | exact Hin]. }
  destruct items as [|[q|l] cs].
  - apply Hsome. discriminate.
  - by eapply Hleaf.
  - apply Hsome. discriminate.
Qed.

Lemma transformable_spec (matrix : Matrix4) (coords : Coords) :
  transformable matrix coords = true →
  ∀ p, p ∈ leaf_positions coords →
       ∃ point, Matrix4_transform matrix p = Ok point.
Proof.
  unfold transformable. rewrite forallb_forall. intros Hall p Hp.
  specialize (Hall p (proj1 (list_elem_of_In _ _) Hp)).
  destruct (Matrix4_transform matrix p) as [point|e]; [eauto | discriminate].
Qed.

Lemma tighten_tightened (delta : Qc) (planes : gmap string Plane) :
  0 ≤ delta → tightened (tighten delta planes) planes.
Proof.
  intros Hd name. unfold tighten. rewrite lookup_fmap.
  destruct (planes !! name) as [p|]; simpl; [|exact I].
  split; [reflexivity|].
  rewrite <- (Qcplus_0_r (distance p)) at 2.
  unfold Qcminus. apply Qcplus_le_compat; [apply Qcle_refl|].
  apply Qcopp_le_compat in Hd. exact Hd.
Qed.

Lemma coordIsInPlanes_mono (tight planes : gmap string Plane)
    (point : list Qc) :
  tightened tight planes →
  coordIsInPlanes tight point = true → coordIsInPlanes planes point = true.
Proof.
  intros Ht. rewrite !coordIsInPlanes_spec. intros Hin name p Hp.
  specialize (Ht name). rewrite Hp in Ht.
  destruct (tight !! name) as [p'|] eqn:Hp'; [|contradiction].
  destruct Ht as [Hn Hd]. rewrite <- Hn.
  eapply Qclt_le_trans; [by eapply Hin | exact Hd].
Qed.

Lemma transformedCoordIsInPlanes_mono (matrix : Matrix4)
    (tight planes : gmap string Plane) (c : Coords) :
  tightened tight planes →
  (transformedCoordIsInPlanes matrix tight c = Ok true →
   transformedCoordIsInPlanes matrix planes c = Ok true)
  ∧ (transformedCoordIsInPlanes matrix tight c = Ok false →
     ∃ b, transformedCoordIsInPlanes matrix planes c = Ok b).
Proof.
  intros Ht. unfold transformedCoordIsInPlanes.
  destruct (Matrix4_transform matrix c) as [point|e]; simpl.
  - split; [|eauto]. intros Hin. injection Hin as Hin.
    by rewrite (coordIsInPlanes_mono _ _ _ Ht Hin).
  - split; discriminate.
Qed.

Lemma checkIfCoordsAreInsideFrustum_mono (matrix : Matrix4)
    (tight planes : gmap string Plane) (coords : Coords) :
  tightened tight planes →
  (checkIfCoordsAreInsideFrustum matrix tight coords = Ok true →
   checkIfCoordsAreInsideFrustum matrix planes coords = Ok true)
  ∧ (checkIfCoordsAreInsideFrustum matrix tight coords = Ok false →
     ∃ b, checkIfCoordsAreInsideFrustum matrix planes coords = Ok b).
Proof.
  intros Ht.
  induction coords as [q|items IH] using Coords_nested_ind.
  - split; discriminate.
  - destruct items as [|[q|l] cs].
    + simpl. split; eauto.
    + apply transformedCoordIsInPlanes_mono, Ht.
    + cbn [checkIfCoordsAreInsideFrustum]. apply Array_some_mono.
      intros c Hc. rewrite Forall_forall in IH.
      destruct c as [q|[|[q|l'] cs']];
        try (apply transformedCoordIsInPlanes_mono, Ht).
      apply (IH _ Hc).
Qed.

(** C5. On a well-nested coordinate structure whose leaf positions the
    transform accepts, the containment check returns, and it returns true
    exactly when some leaf position, transformed and with a zero component
    appended, has [dot(normal, point) < distance] for every plane of the
    set. *)
Theorem frustum_containment_iff (matrix : Matrix4)
    (frustumPlanes : gmap string Plane) (coords : Coords) :
  well_nested coords = true →
  transformable matrix coords = true →
  ∃ b, checkIfCoordsAreInsideFrustum matrix frustumPlanes coords = Ok b
       ∧ (b = true
          ↔ ∃ p point,
              p ∈ leaf_positions coords
              ∧ Matrix4_transform matrix p = Ok point
              ∧ ∀ name plane, frustumPlanes !! name = Some plane →
                  Vector3_dot (normal plane) (point ++ [0]) < distance plane).
Proof.
  intros Hwf Htr.
  destruct (checkIfCoordsAreInsideFrustum_spec matrix frustumPlanes coords
              Hwf (transformable_spec _ _ Htr)) as (b & Hb & Hiff).
  exists b. split; [exact Hb|]. rewrite Hiff.
  unfold leaf_inside, inside_planes. split.
  - intros (p & Hp & point & Hpt & Hin). eauto.
  - intros (p & point & Hp & Hpt & Hin). eauto.
Qed.

(** C7. Lowering the distances of the planes, normals unchanged, only
    shrinks what is contained: a leaf position that passes the tightened
    planes passes the original ones, and so does a whole structure. *)
Theorem frustum_monotone_under_tightening (tight planes : gmap string Plane) :
  tightened tight planes →
  (∀ matrix position point,
     Matrix4_transform matrix position = Ok point →
     coordIsInPlanes tight (point ++ [0]) = true →
     coordIsInPlanes planes (point ++ [0]) = true)
  ∧ (∀ matrix coords,
       checkIfCoordsAreInsideFrustum matrix tight coords = Ok true →
       checkIfCoordsAreInsideFrustum matrix planes coords = Ok true).
Proof.
  intros Ht. split.
  - intros matrix position point _. by apply coordIsInPlanes_mono.
  - intros matrix coords.
    apply (checkIfCoordsAreInsideFrustum_mono matrix tight planes coords Ht).
Qed.

(** C10. No plane rejects a point when the set of planes is empty, so a
    well-nested structure with at least one leaf position (that the
    transform accepts) is reported inside; a structure without leaf
    positions, the empty array, is reported outside whatever the planes. *)
Theorem empty_planes_and_empty_coords (matrix : Matrix4) :
  (∀ point, coordIsInPlanes ∅ point = true)
  ∧ (∀ coords,
       well_nested coords = true →
       transformable matrix coords = true →
       leaf_positions coords ≠ [] →
       checkIfCoordsAreInsideFrustum matrix ∅ coords = Ok true)
  ∧ (∀ frustumPlanes coords,
       well_nested coords = true →
       leaf_positions coords = [] →
       coords = CArr []
       ∧ checkIfCoordsAreInsideFrustum matrix frustumPlanes coords
         = Ok false).
Proof.
  split; [|split].
  - intros point. apply coordIsInPlanes_spec. intros name p Hp.
    rewrite lookup_empty in Hp. discriminate.
  - intros coords Hwf Htr Hne.
    destruct (checkIfCoordsAreInsideFrustum_spec matrix ∅ coords
                Hwf (transformable_spec _ _ Htr)) as (b & Hb & Hiff).
    rewrite Hb. f_equal. apply Hiff.
    destruct (leaf_positions coords) as [|p ps] eqn:Hlp; [done|].
    exists p. split; [left|].
    destruct (transformable_spec _ _ Htr p) as [point Hpt].
    { rewrite Hlp. left. }
    exists point. split; [exact Hpt|].
    intros name pl Hpl. rewrite lookup_empty in Hpl. discriminate.
  - intros frustumPlanes coords Hwf Hlp.
    assert (Hc : coords = CArr []).
    { revert Hwf Hlp.
      induction coords as [q|items IH] using Coords_nested_ind;
        [discriminate|].
      destruct items as [|[q|l] cs]; [reflexivity | discriminate |].
      intros Hwf Hlp. exfalso.
      apply Forall_cons in IH as [IHc _].
      cbn [well_nested forallb] in Hwf.
      apply andb_true_iff in Hwf as [Hwf _].
      cbn [leaf_positions flat_map] in Hlp.
      apply app_eq_nil in Hlp as [Hlp _].
      destruct l as [|c l']; [discriminate|].
      specialize (IHc Hwf Hlp). discriminate. }
    split; [exact Hc|]. subst coords. reflexivity.
Qed.

End FrustumProperties.

Lemma frustum_containment_iff_witness :
  ∃ b, checkIfCoordsAreInsideFrustum (H := Affine.mathgl)
         Affine.identity (plane_x (Z2Qc 10)) point_origin = Ok b
       ∧ (b = true
          ↔ ∃ p point,
              p ∈ leaf_positions point_origin
              ∧ Affine.transform Affine.identity p = Ok point
              ∧ ∀ name plane, plane_x (Z2Qc 10) !! name = Some plane →
                  Affine.dot (normal plane) (point ++ [0]) < distance plane).
Proof.
  apply (frustum_containment_iff (H := Affine.mathgl)); reflexivity.
Defined.

Lemma frustum_monotone_under_tightening_witness :
  checkIfCoordsAreInsideFrustum (H := Affine.mathgl) Affine.identity
    (plane_x (Z2Qc 10)) point_origin
  = Ok true.
Proof.
  apply (proj2 (frustum_monotone_under_tightening (H := Affine.mathgl)
                  (tighten (H := Affine.mathgl) (Z2Qc 5) (plane_x (Z2Qc 10)))
                  (plane_x (Z2Qc 10))
                  (tighten_tightened (H := Affine.mathgl) (Z2Qc 5)
                     (plane_x (Z2Qc 10)) ltac:(discriminate)))).
  reflexivity.
Defined.

(** The scenario of the specification: the point [[0, 0]] under the identity
    transform is inside the plane of normal [(1, 0, 0)] at distance 10, and
    outside it at distance -1. *)
Example point_origin_inside_at_10 :
  checkIfCoordsAreInsideFrustum (H := Affine.mathgl) Affine.identity
    (plane_x (Z2Qc 10)) point_origin
  = Ok true.
Proof. reflexivity. Qed.

Example point_origin_outside_at_minus_1 :
  checkIfCoordsAreInsideFrustum (H := Affine.mathgl) Affine.identity
    (plane_x (Z2Qc (-1))) point_origin
  = Ok false.
Proof. reflexivity. Qed.

(** A malformed structure: the empty first child is handed to the
    transform, which raises, before the position beside it is looked at. *)
Example malformed_coords_raise :
  checkIfCoordsAreInsideFrustum (H := Affine.mathgl) Affine.identity ∅
    (CArr [CArr []; CArr [CNum 0; CNum 0]])
  = Throw (Error "Illegal vector").
Proof. reflexivity. Qed.

Lemma empty_planes_and_empty_coords_witness :
  checkIfCoordsAreInsideFrustum (H := Affine.mathgl) Affine.identity ∅
    line_diagonal
  = Ok true.
Proof.
  apply (empty_planes_and_empty_coords (H := Affine.mathgl));
    [reflexivity | reflexivity | discriminate].
Defined.

(** ** De-duplication *)

Lemma bind_Ok {A B : Type} (m : result A) (k : A → result B) (b : B) :
  m ≫= k = Ok b ↔ ∃ a, m = Ok a ∧ k a = Ok b.
Proof.
  destruct m as [a|e]; simpl; split.
  - eauto.
  - intros (a' & [= <-] & Hk). exact Hk.
  - discriminate.
  - intros (a' & Ha & _). discriminate.
Qed.

Lemma resolve_all_cons_Ok (p : string) (f : Feature) (fs : list Feature)
    (ids : list JsValue) :
  resolve_all p (f :: fs) = Ok ids →
  ∃ v vs, ids = v :: vs ∧ getFeatureUniqueId f p = Ok v
          ∧ resolve_all p fs = Ok vs.
Proof.
  simpl. intros Hr.
  apply bind_Ok in Hr as (v & Hv & Hr).
  apply bind_Ok in Hr as (vs & Hvs & [= <-]). eauto.
Qed.

Lemma renderedLoop_spec (p : string) (ids : list JsValue) :
  ∀ (fs : list PickingInfo) (pre rest : list JsValue)
    (cache : gset JsValue) (acc : list Feature),
    ids = pre ++ rest →
    resolve_all p (object <$> fs) = Ok rest →
    (∀ v, v ∈ cache ↔ v ≠ minus_one ∧ v ∈ pre) →
    renderedLoop p fs cache acc
    = Ok (acc ++ select_from (kept ids) (length pre) (object <$> fs)).
Proof.
  induction fs as [|f fs IH]; intros pre rest cache acc Hids Hres Hcache.
  - simpl. by rewrite app_nil_r.
  - rewrite fmap_cons in Hres.
    apply resolve_all_cons_Ok in Hres as (v & vs & -> & Hv & Hvs).
    assert (Hk : kept ids (length pre)
                 = bool_decide (v = minus_one) || bool_decide (v ∉ pre)).
    { unfold kept. rewrite Hids, list_lookup_middle by reflexivity.
      by rewrite take_app_length. }
    assert (Hnext : ids = (pre ++ [v]) ++ vs).
    { by rewrite <- app_assoc. }
    assert (Hlen : S (length pre) = length (pre ++ [v])).
    { rewrite length_app. simpl. lia. }
    simpl. rewrite Hv. simpl. rewrite Hk, Hlen.
    destruct (strict_equals v minus_one) eqn:Hse.
    + apply strict_equals_minus_one in Hse.
      rewrite (bool_decide_eq_true_2 _ Hse). simpl.
      rewrite (IH _ _ _ _ Hnext Hvs).
      * by rewrite <- app_assoc.
      * intros w. rewrite Hcache, elem_of_app, list_elem_of_singleton.
        intuition congruence.
    + apply strict_equals_minus_one_false in Hse.
      rewrite (bool_decide_eq_false_2 _ Hse). simpl.
      destruct (decide (v ∈ cache)) as [Hin|Hnin].
      * rewrite (bool_decide_eq_true_2 _ Hin). simpl.
        assert (Hpre : v ∈ pre) by (apply Hcache in Hin; tauto).
        rewrite (bool_decide_eq_false_2 (v ∉ pre)) by tauto.
        apply (IH _ _ _ _ Hnext Hvs).
        intros w. rewrite Hcache, elem_of_app, list_elem_of_singleton.
        intuition congruence.
      * rewrite (bool_decide_eq_false_2 _ Hnin). simpl.
        assert (Hpre : v ∉ pre) by (intros Hp; apply Hnin, Hcache; tauto).
        rewrite (bool_decide_eq_true_2 (v ∉ pre)) by exact Hpre.
        rewrite (IH _ _ _ _ Hnext Hvs).
        -- by rewrite <- app_assoc.
        -- intros w.
           rewrite elem_of_union, elem_of_singleton, Hcache, elem_of_app,
             list_elem_of_singleton.
           intuition congruence.
Qed.

Lemma dedup_inv_nil (p : string) : dedup_inv p [] ∅.
Proof.
  split.
  - intros i j fi fj v Hi. rewrite lookup_nil in Hi. discriminate.
  - intros f v Hf. inversion Hf.
Qed.

Lemma dedup_inv_push (p : string) (acc : list Feature)
    (cache cache' : gset JsValue) (f : Feature) (v : JsValue) :
  dedup_inv p acc cache →
  getFeatureUniqueId f p = Ok v →
  (v ≠ minus_one → v ∉ cache) →
  cache ⊆ cache' →
  (v ≠ minus_one → v ∈ cache') →
  dedup_inv p (acc ++ [f]) cache'.
Proof.
  intros [Huniq Hseen] Hv Hfresh Hsub Hadd. split.
  - intros i j fi fj w Hi Hj Hfi Hfj Hw.
    apply lookup_snoc_Some in Hi as [[Hil Hi]|[-> <-]];
      apply lookup_snoc_Some in Hj as [[Hjl Hj]|[-> <-]].
    + by eapply Huniq.
    + exfalso. assert (w = v) as -> by congruence.
      apply (Hfresh Hw). eapply Hseen; [|exact Hfi|exact Hw].
      by eapply list_elem_of_lookup_2.
    + exfalso. assert (w = v) as -> by congruence.
      apply (Hfresh Hw). eapply Hseen; [|exact Hfj|exact Hw].
      by eapply list_elem_of_lookup_2.
    + reflexivity.
  - intros g w Hg Hgw Hw.
    apply elem_of_app in Hg as [Hg|Hg].
    + apply Hsub. by eapply Hseen.
    + apply list_elem_of_singleton in Hg as ->.
      assert (w = v) as -> by congruence. by apply Hadd.
Qed.

Lemma renderedLoop_inv (p : string) :
  ∀ (fs : list PickingInfo) (cache : gset JsValue) (acc l : list Feature),
    dedup_inv p acc cache →
    renderedLoop p fs cache acc = Ok l →
    defined_ids_unique p l.
Proof.
  induction fs as [|f fs IH]; intros cache acc l Hinv Hrun; simpl in Hrun.
  - injection Hrun as <-. apply Hinv.
  - apply bind_Ok in Hrun as (v & Hv & Hrun).
    destruct (strict_equals v minus_one) eqn:Hse.
    + apply strict_equals_minus_one in Hse.
      eapply IH; [|exact Hrun].
      eapply dedup_inv_push; [exact Hinv | exact Hv | | done | ]; congruence.
    + destruct (decide (v ∈ cache)) as [Hin|Hnin].
      * rewrite (bool_decide_eq_true_2 _ Hin) in Hrun. simpl in Hrun.
        by eapply IH.
      * rewrite (bool_decide_eq_false_2 _ Hnin) in Hrun. simpl in Hrun.
        eapply IH; [|exact Hrun].
        eapply dedup_inv_push; [exact Hinv | exact Hv | | | ]; set_solver.
Qed.

Section ViewportProperties.
Context `{MathGL}.

Lemma viewportFilter_Ok (matrix : Matrix4) (planes : gmap string Plane)
    (p : string) (f : Feature) (cache cache1 : gset JsValue) (keep : bool) :
  viewportFilter matrix planes p f cache = Ok (keep, cache1) →
  ∃ v, getFeatureUniqueId f p = Ok v
       ∧ (if keep then (v ∉ cache) ∧ cache1 = ({[v]} ∪ cache)
          else cache1 = cache).
Proof.
  unfold viewportFilter. intros Hrun.
  apply bind_Ok in Hrun as (v & Hv & Hrun). exists v. split; [exact Hv|].
  destruct (decide (v ∈ cache)) as [Hin|Hnin].
  - rewrite (bool_decide_eq_true_2 _ Hin) in Hrun. by injection Hrun as <- <-.
  - rewrite (bool_decide_eq_false_2 _ Hnin) in Hrun.
    apply bind_Ok in Hrun as ([|] & _ & Hrun); by injection Hrun as <- <-.
Qed.

Lemma filterTileData_inv (matrix : Matrix4) (planes : gmap string Plane)
    (p : string) :
  ∀ (data : list Feature) (cache cache2 : gset JsValue)
    (acc kept : list Feature),
    dedup_inv p acc cache →
    filterTileData matrix planes p data cache = Ok (kept, cache2) →
    dedup_inv p (acc ++ kept) cache2.
Proof.
  induction data as [|f data IH]; intros cache cache2 acc kept Hinv Hrun;
    simpl in Hrun.
  - injection Hrun as <- <-. by rewrite app_nil_r.
  - apply bind_Ok in Hrun as ([keep cache1] & Hf & Hrun).
    apply bind_Ok in Hrun as ([kept' cache2'] & Hrest & Hrun).
    injection Hrun as <- <-.
    apply viewportFilter_Ok in Hf as (v & Hv & Hkeep).
    destruct keep.
    + destruct Hkeep as [Hnin ->].
      rewrite (cons_middle f acc kept'), app_assoc.
      eapply IH; [|exact Hrest].
      eapply dedup_inv_push; [exact Hinv | exact Hv | | | ]; set_solver.
    + subst cache1. by eapply IH.
Qed.

Lemma forEachSelectedTile_inv (planes : gmap string Plane) (p : string) :
  ∀ (selected : list Tile) (cache : gset JsValue) (acc l : list Feature),
    dedup_inv p acc cache →
    forEachSelectedTile planes p selected cache acc = Ok l →
    defined_ids_unique p l.
Proof.
  induction selected as [|tile selected IH]; intros cache acc l Hinv Hrun;
    simpl in Hrun.
  - injection Hrun as <-. apply Hinv.
  - destruct (tile_data tile) as [data|]; [|by eapply IH].
    apply bind_Ok in Hrun as ([kept cache1] & Hf & Hrun).
    eapply IH; [|exact Hrun]. by eapply filterTileData_inv.
Qed.

Lemma viewportFilter_returns (matrix : Matrix4) (planes : gmap string Plane)
    (p : string) (f : Feature) (cache : gset JsValue) :
  decoded_feature matrix p f = true →
  ∃ r, viewportFilter matrix planes p f cache = Ok r.
Proof.
  unfold decoded_feature, viewportFilter. intros Hdec.
  destruct (getFeatureUniqueId f p) as [v|e]; [simpl | discriminate].
  destruct (bool_decide (v ∈ cache)); [eauto|].
  destruct (geometry f) as [g|]; [|discriminate].
  destruct (coordinates g) as [coords|]; [|discriminate].
  apply andb_true_iff in Hdec as [Hwf Htr].
  destruct (checkIfCoordsAreInsideFrustum_spec matrix planes coords
              Hwf (transformable_spec _ _ Htr)) as (b & Hb & _).
  rewrite Hb. simpl. destruct b; eauto.
Qed.

Lemma filterTileData_returns (matrix : Matrix4) (planes : gmap string Plane)
    (p : string) (data : list Feature) :
  forallb (decoded_feature matrix p) data = true →
  ∀ cache, ∃ r, filterTileData matrix planes p data cache = Ok r.
Proof.
  induction data as [|f data IH]; intros Hdec cache; simpl.
  - eauto.
  - simpl in Hdec. apply andb_true_iff in Hdec as [Hf Hdata].
    destruct (viewportFilter_returns matrix planes p f cache Hf)
      as ([keep cache1] & ->). simpl.
    destruct (IH Hdata cache1) as ([kept' cache2] & ->). simpl. eauto.
Qed.

(** On decoded tiles the aggregator returns a list. *)
Lemma getViewportFeatures_returns (selected : list Tile) (p : string)
    (planes : gmap string Plane) :
  decoded_tiles p selected = true →
  ∃ l, getViewportFeatures selected p planes = Ok l.
Proof.
  unfold getViewportFeatures, decoded_tiles.
  generalize (∅ : gset JsValue) ([] : list Feature).
  induction selected as [|tile selected IH]; intros cache acc Hdec; simpl.
  - eauto.
  - simpl in Hdec. apply andb_true_iff in Hdec as [Htile Hrest].
    destruct (tile_data tile) as [data|]; [|by apply IH].
    destruct (filterTileData_returns (placement tile) planes p data Htile
                cache) as ([kept' cache1] & Hf).
    unfold placement in Hf. rewrite Hf. simpl. by apply IH.
Qed.

End ViewportProperties.

Lemma select_from_sublist {A : Type} (keep : nat → bool) (xs : list A) :
  ∀ i, sublist (select_from keep i xs) xs.
Proof.
  induction xs as [|x xs IH]; intros i; simpl.
  - constructor.
  - destruct (keep i); [apply sublist_skip | apply sublist_cons]; apply IH.
Qed.

Lemma kept_spec (ids : list JsValue) (i : nat) :
  kept ids i = true
  ↔ ∃ v, ids !! i = Some v
         ∧ (v = minus_one ∨ ∀ j, (j < i)%nat → ids !! j ≠ Some v).
Proof.
  unfold kept. destruct (ids !! i) as [v|] eqn:Hi.
  - rewrite orb_true_iff, !bool_decide_eq_true. split.
    + intros [Hs|Hfirst]; exists v; (split; [reflexivity|]); [by left|].
      right. intros j Hj Hjv. apply Hfirst.
      apply list_elem_of_lookup. exists j. rewrite lookup_take_lt; done.
    + intros (w & [= <-] & [Hs|Hfirst]); [by left|]. right.
      intros Hin. apply list_elem_of_lookup in Hin as [j Hj].
      assert (Hlt : (j < i)%nat).
      { apply lookup_lt_Some in Hj. rewrite length_take in Hj. lia. }
      rewrite lookup_take_lt in Hj by exact Hlt. by eapply Hfirst.
  - split; [discriminate|]. by intros (v & [=] & _).
Qed.

(** C1, the failing input.  Two features without identity in one tile, each
    of them inside the frustum: the rendered-feature collector keeps both,
    the viewport aggregator keeps the first and drops the second as a
    duplicate. *)
Theorem getViewportFeatures_drops_second_sentinel :
  getFeatureUniqueId anonymous_1 EmptyString = Ok minus_one
  ∧ getFeatureUniqueId anonymous_2 EmptyString = Ok minus_one
  ∧ getViewportFeatures (H := Affine.mathgl)
      [ {| tile_x := 0; tile_y := 0; tile_z := 0;
           tile_data := Some [anonymous_1] |} ] EmptyString ∅
    = Ok [anonymous_1]
  ∧ getViewportFeatures (H := Affine.mathgl)
      [ {| tile_x := 0; tile_y := 0; tile_z := 0;
           tile_data := Some [anonymous_2] |} ] EmptyString ∅
    = Ok [anonymous_2]
  ∧ getViewportFeatures (H := Affine.mathgl) [tile_anonymous] EmptyString ∅
    = Ok [anonymous_1]
  ∧ getRenderedFeatures EmptyString
      [ {| object := anonymous_1 |}; {| object := anonymous_2 |} ]
    = Ok [anonymous_1; anonymous_2].
Proof. repeat split; vm_compute; reflexivity. Qed.

(** C2. No two positions of the list that [getRenderedFeatures] or
    [getViewportFeatures] returns hold features of one defined (other than
    [-1]) identity, as [getFeatureUniqueId] resolves it with the configured
    [uniqueIdProperty]; and on decoded tiles [getViewportFeatures] does
    return such a list. *)
Theorem deduplication_invariant (uniqueIdProperty : string) :
  (∀ (features : list PickingInfo) (l : list Feature),
     getRenderedFeatures uniqueIdProperty features = Ok l →
     defined_ids_unique uniqueIdProperty l)
  ∧ (∀ (H : MathGL) (selectedTiles : list Tile)
       (frustumPlanes : gmap string Plane) (l : list Feature),
       getViewportFeatures selectedTiles uniqueIdProperty frustumPlanes
       = Ok l →
       defined_ids_unique uniqueIdProperty l)
  ∧ (∀ (H : MathGL) (selectedTiles : list Tile)
       (frustumPlanes : gmap string Plane),
       decoded_tiles uniqueIdProperty selectedTiles = true →
       ∃ l, getViewportFeatures selectedTiles uniqueIdProperty frustumPlanes
            = Ok l
            ∧ defined_ids_unique uniqueIdProperty l).
Proof.
  split; [|split].
  - intros features l. apply renderedLoop_inv, dedup_inv_nil.
  - intros H selectedTiles frustumPlanes l.
    apply forEachSelectedTile_inv, dedup_inv_nil.
  - intros H selectedTiles frustumPlanes Hdec.
    destruct (getViewportFeatures_returns selectedTiles uniqueIdProperty
                frustumPlanes Hdec) as [l Hl].
    exists l. split; [exact Hl|].
    revert Hl. apply forEachSelectedTile_inv, dedup_inv_nil.
Qed.

Lemma deduplication_invariant_witness :
  getViewportFeatures (H := Affine.mathgl) tiles_river EmptyString ∅
  = Ok [river_west]
  ∧ defined_ids_unique EmptyString [river_west]
  ∧ defined_ids_unique EmptyString [numbered_1; anonymous_1].
Proof.
  split; [reflexivity|]. split.
  - apply (proj1 (proj2 (deduplication_invariant EmptyString))
             Affine.mathgl tiles_river ∅).
    reflexivity.
  - apply (proj1 (deduplication_invariant EmptyString) picked_scenario).
    reflexivity.
Defined.

(** C4. When every picked feature resolves to an identity,
    [getRenderedFeatures] returns the picked features at the positions
    whose identity is the sentinel [-1] or occurs at no earlier position,
    in the order of the input. *)
Theorem getRenderedFeatures_first_occurrences (uniqueIdProperty : string)
    (features : list PickingInfo) (ids : list JsValue) :
  resolve_all uniqueIdProperty (object <$> features) = Ok ids →
  getRenderedFeatures uniqueIdProperty features
  = Ok (select_from (kept ids) 0 (object <$> features))
  ∧ sublist (select_from (kept ids) 0 (object <$> features))
      (object <$> features)
  ∧ ∀ i, kept ids i = true
         ↔ ∃ v, ids !! i = Some v
                ∧ (v = minus_one ∨ ∀ j, (j < i)%nat → ids !! j ≠ Some v).
Proof.
  intros Hres. split; [|split].
  - unfold getRenderedFeatures.
    rewrite (renderedLoop_spec uniqueIdProperty ids features [] ids ∅ []);
      [reflexivity | reflexivity | exact Hres |].
    intros v. split; [set_solver|]. intros [_ Hv]. inversion Hv.
  - apply select_from_sublist.
  - intros i. apply kept_spec.
Qed.

Lemma getRenderedFeatures_first_occurrences_witness :
  getRenderedFeatures EmptyString picked_scenario
  = Ok [numbered_1; anonymous_1].
Proof.
  apply (proj1 (getRenderedFeatures_first_occurrences EmptyString
                  picked_scenario
                  [VNumber (Fin (Z2Qc 1)); VNumber (Fin (Z2Qc 1)); minus_one]
                  eq_refl)).
Defined.

(** ** Zoom bounds *)

Lemma Qc_max_ge (a b : Qc) : a ≤ Qc_max a b ∧ b ≤ Qc_max a b.
Proof.
  unfold Qc_max. case_bool_decide as Hlt.
  - split; [by apply Qclt_le_weak | apply Qcle_refl].
  - split; [apply Qcle_refl | by apply Qcnot_lt_le].
Qed.

Lemma Qc_min_le (a b : Qc) : Qc_min a b ≤ a ∧ Qc_min a b ≤ b.
Proof.
  unfold Qc_min. case_bool_decide as Hlt.
  - split; [by apply Qclt_le_weak | apply Qcle_refl].
  - split; [apply Qcle_refl | by apply Qcnot_lt_le].
Qed.

Lemma updateTileData_with_document (isURLTemplate : string → bool)
    (load : string → result TileJSON)
    (onDataLoad : option (TileJSON → result TileJSON))
    (props : Props) (state state' : State)
    (doc : TileJSON) :
  _updateTileData isURLTemplate load onDataLoad props state = (state', Ok ()) →
  state_tileJSON state' = Some doc →
  state_minZoom state' = minZoomWith doc (props_minZoom props)
  ∧ state_maxZoom state' = maxZoomWith doc (props_maxZoom props).
Proof.
  unfold _updateTileData. intros Hrun Hdoc.
  destruct (props_data props) as [url|l|d| |].
  - destruct (isURLTemplate url); simpl in Hrun.
    + injection Hrun as <-. discriminate Hdoc.
    + destruct (fetchTileJSON load url ≫= callOnDataLoad onDataLoad)
        as [d|e]; [|discriminate Hrun].
      injection Hrun as <-. simpl in Hdoc. injection Hdoc as ->. by split.
  - injection Hrun as <-. discriminate Hdoc.
  - destruct (truthy (tilejson d)); injection Hrun as <-.
    + simpl in Hdoc. injection Hdoc as ->. by split.
    + discriminate Hdoc.
  - discriminate Hrun.
  - discriminate Hrun.
Qed.



(** The same run, evaluated: zoom range 0..14 asked, 2..10 declared. *)
Example updateTileData_scenario :
  let state' := fst (_updateTileData (fun _ => false)
                       (fun _ => Ok doc_2_10) None props_0_14
                       initial_state) in
  state_minZoom state' = PNumber (Fin (Z2Qc 2))
  ∧ state_maxZoom state' = PNumber (Fin (Z2Qc 10))
  ∧ state_data state'
    = DataArray ["https://tiles.example/{z}/{x}/{y}.mvt"].
Proof.
  repeat split; vm_compute; repeat f_equal; apply Qc_is_canon; reflexivity.
Qed.

(** * Further properties *)

(** ** The grid of tiles *)

Lemma exact_neighbour (x y z dx dy : Z) :
  exact_origin (x + dx) (y + dy) z
  = zip_with Qcplus (exact_origin x y z)
      (zip_with Qcmult [Z2Qc dx; Z2Qc dy; 0] (exact_scale z)).
Proof.
  unfold exact_origin, exact_scale. simpl.
  pose proof (pow2_nonzero z) as Hnz.
  rewrite !Z2Qc_plus.
  apply (f_equal3 (fun a b c : Qc => [a; b; c]));
    [field; exact Hnz | field; exact Hnz | ring].
Qed.

Lemma pow2_succ (z : Z) : pow2 (z + 1) = pow2 z * Z2Qc 2.
Proof. rewrite pow2_plus. reflexivity. Qed.

Lemma exact_child (x y z i j : Z) :
  exact_scale (z + 1)
  = zip_with Qcmult [/ Z2Qc 2; / Z2Qc 2; 1] (exact_scale z)
  ∧ exact_origin (2 * x + i) (2 * y + j) (z + 1)
    = zip_with Qcplus (exact_origin x y z)
        (zip_with Qcmult [Z2Qc i; Z2Qc j; 0] (exact_scale (z + 1))).
Proof.
  unfold exact_origin, exact_scale. simpl.
  pose proof (pow2_nonzero z) as Hnz.
  assert (H2 : Z2Qc 2 ≠ 0) by discriminate.
  rewrite !pow2_succ, !Z2Qc_plus, !Z2Qc_mult.
  split.
  - apply (f_equal3 (fun a b c : Qc => [a; b; c]));
      [field; by split | field; by split | ring].
  - apply (f_equal3 (fun a b c : Qc => [a; b; c]));
      [field; by split | field; by split | ring].
Qed.

(** X1. At one zoom level [z ≤ 53] the tiles of the grid are placed on a
    regular grid: the origin of the tile [dx] columns and [dy] rows further
    is the origin of the tile plus [dx] times the horizontal and [dy] times
    the (negative) vertical scale, exactly, and the scale is the same. *)
Theorem neighbour_origin (tile tile' : Tile) (dx dy : Z) :
  grid_tile tile → grid_tile tile' →
  tile_z tile' = tile_z tile →
  tile_x tile' = (tile_x tile + dx)%Z →
  tile_y tile' = (tile_y tile + dy)%Z →
  ∃ o s,
    getCoordinateOrigin tile = Fin <$> o
    ∧ getModelMatrixScale tile = Fin <$> s
    ∧ getModelMatrixScale tile' = Fin <$> s
    ∧ getCoordinateOrigin tile'
      = Fin <$> zip_with Qcplus o
                  (zip_with Qcmult [Z2Qc dx; Z2Qc dy; 0] s).
Proof.
  intros Hg Hg' Hz Hx Hy.
  exists (exact_origin (tile_x tile) (tile_y tile) (tile_z tile)),
         (exact_scale (tile_z tile)).
  pose proof Hg as ([Hz0 Hz1] & _).
  split; [by apply getCoordinateOrigin_exact|].
  split; [apply getModelMatrixScale_exact; lia|].
  split; [rewrite <- Hz; apply getModelMatrixScale_exact; lia|].
  rewrite (getCoordinateOrigin_exact _ Hg'), Hx, Hy, Hz.
  by rewrite exact_neighbour.
Qed.

(** X2. The quadtree is consistent up to zoom level 53: the grid tile
    [(2x+i, 2y+j, z+1)] has half the horizontal and vertical scale of the
    tile [(x, y, z)], and its origin is the origin of that tile moved by
    [i] and [j] times its own scale, so the four children with
    [i, j ∈ {0, 1}] tile their parent. *)
Theorem child_placement (tile child : Tile) (i j : Z) :
  grid_tile tile → grid_tile child →
  tile_z child = (tile_z tile + 1)%Z →
  tile_x child = (2 * tile_x tile + i)%Z →
  tile_y child = (2 * tile_y tile + j)%Z →
  ∃ o s s',
    getCoordinateOrigin tile = Fin <$> o
    ∧ getModelMatrixScale tile = Fin <$> s
    ∧ getModelMatrixScale child = Fin <$> s'
    ∧ s' = zip_with Qcmult [/ Z2Qc 2; / Z2Qc 2; 1] s
    ∧ getCoordinateOrigin child
      = Fin <$> zip_with Qcplus o
                  (zip_with Qcmult [Z2Qc i; Z2Qc j; 0] s').
Proof.
  intros Hg Hg' Hz Hx Hy.
  exists (exact_origin (tile_x tile) (tile_y tile) (tile_z tile)),
         (exact_scale (tile_z tile)), (exact_scale (tile_z tile + 1)).
  pose proof Hg as ([Hz0 Hz1] & _). pose proof Hg' as ([Hz0' Hz1'] & _).
  destruct (exact_child (tile_x tile) (tile_y tile) (tile_z tile) i j)
    as [Hs Ho].
  split; [by apply getCoordinateOrigin_exact|].
  split; [apply getModelMatrixScale_exact; lia|].
  split; [rewrite <- Hz; apply getModelMatrixScale_exact; lia|].
  split; [exact Hs|].
  rewrite (getCoordinateOrigin_exact _ Hg'), Hx, Hy, Hz.
  by rewrite Ho.
Qed.

(** X3. At every zoom level from -1014 to 1023 the placement scale is
    [(s, −s, 1)] with [s = 512/2^z], a finite double greater than zero: no
    component is zero, and the vertical axis is flipped. *)
Theorem scale_never_degenerate (tile : Tile) :
  (-1014 ≤ tile_z tile ≤ 1023)%Z →
  ∃ s, getModelMatrixScale tile = [Fin s; Fin (- s); Fin 1]
       ∧ s = WORLD_SIZE / pow2 (tile_z tile) ∧ 0 < s.
Proof.
  intros Hz. exists (WORLD_SIZE / pow2 (tile_z tile)).
  split; [by apply getModelMatrixScale_exact|]. split; [reflexivity|].
  unfold Qcdiv. apply Qcmult_pos_pos; [reflexivity|].
  apply Qcinv_pos, pow2_pos.
Qed.

(** X4. A tile of the grid ([0 ≤ x, y < 2^z]) at a zoom level
    [0 ≤ z ≤ 53] is placed inside the world square: its origin and the
    opposite corner (origin plus scale) have both coordinates between 0
    and [WORLD_SIZE]. *)
Theorem tile_within_world (tile : Tile) :
  (0 ≤ tile_z tile ≤ 53)%Z →
  (0 ≤ tile_x tile < 2 ^ tile_z tile)%Z →
  (0 ≤ tile_y tile < 2 ^ tile_z tile)%Z →
  ∃ ox oy sx sy,
    getCoordinateOrigin tile = [Fin ox; Fin oy; Fin 0]
    ∧ getModelMatrixScale tile = [Fin sx; Fin sy; Fin 1]
    ∧ 0 ≤ ox ∧ ox + sx ≤ WORLD_SIZE
    ∧ 0 ≤ oy + sy ∧ oy ≤ WORLD_SIZE.
Proof.
  intros [Hz Hz53] [Hx0 Hx1] [Hy0 Hy1].
  do 4 eexists.
  split; [apply getCoordinateOrigin_exact; repeat split; lia|].
  split; [apply getModelMatrixScale_exact; lia|].
  set (P := pow2 (tile_z tile)).
  set (X := Z2Qc (tile_x tile)). set (Y := Z2Qc (tile_y tile)).
  assert (HP : 0 < P) by apply pow2_pos.
  assert (HPn : P ≠ 0) by apply pow2_nonzero.
  assert (HiP : 0 ≤ / P) by (apply Qclt_le_weak, Qcinv_pos, HP).
  assert (HW : 0 < WORLD_SIZE) by reflexivity.
  assert (HX0 : 0 ≤ X) by (apply (Z2Qc_le 0), Hx0).
  assert (HY0 : 0 ≤ Y) by (apply (Z2Qc_le 0), Hy0).
  assert (HX1 : X + 1 ≤ P).
  { unfold P. rewrite (pow2_nonneg _ Hz).
    change 1 with (Z2Qc 1). unfold X. rewrite <- Z2Qc_plus.
    apply Z2Qc_le. lia. }
  assert (HY1 : Y + 1 ≤ P).
  { unfold P. rewrite (pow2_nonneg _ Hz).
    change 1 with (Z2Qc 1). unfold Y. rewrite <- Z2Qc_plus.
    apply Z2Qc_le. lia. }
  assert (Hdiv : ∀ a b, a ≤ b → a / P ≤ b / P).
  { intros a b Hab. unfold Qcdiv. by apply Qcmult_le_compat_r. }
  assert (Hmul : ∀ a b, a ≤ b → WORLD_SIZE * a ≤ WORLD_SIZE * b).
  { intros a b Hab. by apply Qcmult_le_mono_pos_l. }
  repeat split.
  - replace 0 with (WORLD_SIZE * 0 / P) by (field; exact HPn).
    apply Hdiv, Hmul, HX0.
  - replace (WORLD_SIZE * X / P + WORLD_SIZE / P)
      with (WORLD_SIZE * (X + 1) / P) by (field; exact HPn).
    replace WORLD_SIZE with (WORLD_SIZE * P / P) at 2 by (field; exact HPn).
    apply Hdiv, Hmul, HX1.
  - replace (WORLD_SIZE * (1 - Y / P) + - (WORLD_SIZE / P))
      with (WORLD_SIZE * (P - (Y + 1)) / P) by (field; exact HPn).
    replace 0 with (WORLD_SIZE * 0 / P) by (field; exact HPn).
    apply Hdiv, Hmul.
    replace 0 with ((Y + 1) - (Y + 1)) by ring.
    unfold Qcminus. apply Qcplus_le_compat; [exact HY1 | apply Qcle_refl].
  - replace (WORLD_SIZE * (1 - Y / P))
      with (WORLD_SIZE * (P - Y) / P) by (field; exact HPn).
    replace WORLD_SIZE with (WORLD_SIZE * P / P) at 2 by (field; exact HPn).
    apply Hdiv, Hmul.
    replace P with (P - 0) at 2 by ring.
    unfold Qcminus. apply Qcplus_le_compat; [apply Qcle_refl|].
    apply Qcopp_le_compat, HY0.
Qed.

Lemma neighbour_origin_witness :
  ∃ o s,
    getCoordinateOrigin
      {| tile_x := 0; tile_y := 1; tile_z := 2; tile_data := None |}
    = Fin <$> o
    ∧ getModelMatrixScale
        {| tile_x := 0; tile_y := 1; tile_z := 2; tile_data := None |}
      = Fin <$> s
    ∧ getModelMatrixScale
        {| tile_x := 3; tile_y := 0; tile_z := 2; tile_data := None |}
      = Fin <$> s
    ∧ getCoordinateOrigin
        {| tile_x := 3; tile_y := 0; tile_z := 2; tile_data := None |}
      = Fin <$> zip_with Qcplus o
                  (zip_with Qcmult [Z2Qc 3; Z2Qc (-1); 0] s).
Proof.
  apply (neighbour_origin
           {| tile_x := 0; tile_y := 1; tile_z := 2; tile_data := None |}
           {| tile_x := 3; tile_y := 0; tile_z := 2; tile_data := None |}
           3 (-1));
    unfold grid_tile; simpl; lia.
Defined.

Lemma child_placement_witness :
  ∃ o s s',
    getCoordinateOrigin
      {| tile_x := 1; tile_y := 0; tile_z := 1; tile_data := None |}
    = Fin <$> o
    ∧ getModelMatrixScale
        {| tile_x := 1; tile_y := 0; tile_z := 1; tile_data := None |}
      = Fin <$> s
    ∧ getModelMatrixScale
        {| tile_x := 3; tile_y := 1; tile_z := 2; tile_data := None |}
      = Fin <$> s'
    ∧ s' = zip_with Qcmult [/ Z2Qc 2; / Z2Qc 2; 1] s
    ∧ getCoordinateOrigin
        {| tile_x := 3; tile_y := 1; tile_z := 2; tile_data := None |}
      = Fin <$> zip_with Qcplus o
                  (zip_with Qcmult [Z2Qc 1; Z2Qc 1; 0] s').
Proof.
  apply (child_placement
           {| tile_x := 1; tile_y := 0; tile_z := 1; tile_data := None |}
           {| tile_x := 3; tile_y := 1; tile_z := 2; tile_data := None |}
           1 1);
    unfold grid_tile; simpl; lia.
Defined.

Lemma scale_never_degenerate_witness :
  ∃ s, getModelMatrixScale
         {| tile_x := 0; tile_y := 0; tile_z := 1023; tile_data := None |}
       = [Fin s; Fin (- s); Fin 1]
       ∧ s = WORLD_SIZE / pow2 1023 ∧ 0 < s.
Proof.
  apply (scale_never_degenerate
           {| tile_x := 0; tile_y := 0; tile_z := 1023;
              tile_data := None |}).
  simpl. lia.
Defined.

(** Beyond the range: [Math.pow(2, 1024)] is [Infinity], and the scale of
    such a tile is [(0, -0, 1)], both zeros being the one zero [Fin 0]. *)
Example scale_at_zoom_1024 :
  Math_pow2 1024 = Infinity false
  ∧ getModelMatrixScale
      {| tile_x := 0; tile_y := 0; tile_z := 1024; tile_data := None |}
    = [Fin 0; Fin 0; Fin 1].
Proof.
  split; [by vm_compute|]. vm_compute.
  repeat f_equal; apply Qc_is_canon; reflexivity.
Qed.

Lemma tile_within_world_witness :
  ∃ ox oy sx sy,
    getCoordinateOrigin
      {| tile_x := 1; tile_y := 0; tile_z := 1; tile_data := None |}
    = [Fin ox; Fin oy; Fin 0]
    ∧ getModelMatrixScale
        {| tile_x := 1; tile_y := 0; tile_z := 1; tile_data := None |}
      = [Fin sx; Fin sy; Fin 1]
    ∧ 0 ≤ ox ∧ ox + sx ≤ WORLD_SIZE
    ∧ 0 ≤ oy + sy ∧ oy ≤ WORLD_SIZE.
Proof.
  apply (tile_within_world
           {| tile_x := 1; tile_y := 0; tile_z := 1; tile_data := None |});
    simpl; lia.
Defined.

(** ** More on frustum containment *)

Lemma Array_some_throw {A : Type} (f : A → result bool) (xs : list A)
    (e : JsError) :
  Array_some f xs = Throw e → ∃ x, x ∈ xs ∧ f x = Throw e.
Proof.
  induction xs as [|x xs IH]; simpl; [discriminate|].
  destruct (f x) as [[|]|e'] eqn:Hx.
  - discriminate.
  - intros Hrun. destruct (IH Hrun) as (y & Hy & Hfy).
    exists y. split; [by right | exact Hfy].
  - intros [= <-]. exists x. split; [left | exact Hx].
Qed.

Section FrustumMore.
Context `{MathGL}.

Lemma well_nested_children (items : list Coords) (c : Coords) :
  well_nested (CArr items) = true →
  is_position (CArr items) = false →
  c ∈ items →
  well_nested c = true ∧ ∃ c' cs, c = CArr (c' :: cs).
Proof.
  intros Hwf Hpos Hc.
  assert (Hall : forallb
            (fun c => match c with
                      | CArr (_ :: _) => well_nested c
                      | _ => false
                      end) items = true).
  { destruct items as [|[q|l] cs]; [reflexivity | discriminate | exact Hwf]. }
  rewrite forallb_forall in Hall.
  specialize (Hall c (proj1 (list_elem_of_In _ _) Hc)).
  destruct c as [q|[|c' cs']]; try discriminate. eauto.
Qed.

Lemma leaf_positions_array (items : list Coords) :
  is_position (CArr items) = false →
  leaf_positions (CArr items) = flat_map leaf_positions items.
Proof. destruct items as [|[q|l] cs]; [reflexivity | discriminate | reflexivity]. Qed.

Lemma check_array (matrix : Matrix4) (planes : gmap string Plane)
    (items : list Coords) :
  well_nested (CArr items) = true →
  is_position (CArr items) = false →
  checkIfCoordsAreInsideFrustum matrix planes (CArr items)
  = Array_some (checkIfCoordsAreInsideFrustum matrix planes) items.
Proof.
  intros Hwf Hpos.
  transitivity
    (Array_some
       (fun c =>
          match c with
          | CArr (CArr _ :: _) =>
              checkIfCoordsAreInsideFrustum matrix planes c
          | _ => transformedCoordIsInPlanes matrix planes c
          end) items).
  - destruct items as [|[q|l] cs]; [reflexivity | discriminate | reflexivity].
  - apply Array_some_ext_in. intros c Hc.
    apply some_callback_well_nested.
    destruct (well_nested_children items c Hwf Hpos Hc)
      as (Hc' & c' & cs & ->). exact Hc'.
Qed.

Lemma transformable_child (matrix : Matrix4) (items : list Coords)
    (c : Coords) :
  is_position (CArr items) = false →
  transformable matrix (CArr items) = true →
  c ∈ items →
  transformable matrix c = true.
Proof.
  unfold transformable. intros Hpos Htr Hc.
  rewrite leaf_positions_array in Htr by exact Hpos.
  rewrite forallb_forall in *. intros p Hp. apply Htr.
  apply in_flat_map. exists c. split; [by apply list_elem_of_In | exact Hp].
Qed.

Lemma array_inside_some_part (matrix : Matrix4)
    (planes : gmap string Plane) (items : list Coords) :
  well_nested (CArr items) = true →
  is_position (CArr items) = false →
  transformable matrix (CArr items) = true →
  ∃ b, checkIfCoordsAreInsideFrustum matrix planes (CArr items) = Ok b
       ∧ (b = true
          ↔ ∃ c, c ∈ items
                 ∧ checkIfCoordsAreInsideFrustum matrix planes c = Ok true).
Proof.
  intros Hwf Hpos Htr. rewrite (check_array _ _ _ Hwf Hpos).
  apply Array_some_spec. intros c Hc.
  destruct (well_nested_children items c Hwf Hpos Hc) as [Hc' _].
  destruct (checkIfCoordsAreInsideFrustum_spec matrix planes c Hc'
              (transformable_spec _ _
                 (transformable_child _ _ _ Hpos Htr Hc)))
    as (b & Hb & _).
  exists b. split; [exact Hb|]. rewrite Hb. split; congruence.
Qed.

(** X5. A well-nested array of parts (rings, lines, polygons) whose leaf
    positions the transform accepts is inside the frustum exactly when one
    of its parts is: the check of the array returns, and it returns true
    iff the check of some part returns true. *)
Theorem array_inside_iff_some_part (matrix : Matrix4)
    (planes : gmap string Plane) (items : list Coords) :
  well_nested (CArr items) = true →
  is_position (CArr items) = false →
  transformable matrix (CArr items) = true →
  ∃ b, checkIfCoordsAreInsideFrustum matrix planes (CArr items) = Ok b
       ∧ (b = true
          ↔ ∃ c, c ∈ items
                 ∧ checkIfCoordsAreInsideFrustum matrix planes c = Ok true).
Proof. apply array_inside_some_part. Qed.

(** X6. On such an array the answer does not depend on the order of the
    parts: permuting them gives the same result. *)
Theorem array_inside_permutation (matrix : Matrix4)
    (planes : gmap string Plane) (items items' : list Coords) :
  well_nested (CArr items) = true →
  is_position (CArr items) = false →
  transformable matrix (CArr items) = true →
  items ≡ₚ items' →
  checkIfCoordsAreInsideFrustum matrix planes (CArr items')
  = checkIfCoordsAreInsideFrustum matrix planes (CArr items).
Proof.
  intros Hwf Hpos Htr Hperm.
  assert (Hpos' : is_position (CArr items') = false).
  { destruct items' as [|[q|l] cs]; [reflexivity | | reflexivity].
    exfalso.
    assert (Hq : CNum q ∈ items) by (rewrite Hperm; left).
    destruct (well_nested_children items _ Hwf Hpos Hq)
      as (_ & c' & cs' & Hc). discriminate. }
  assert (Hwf' : well_nested (CArr items') = true).
  { assert (Hall : forallb
              (fun c => match c with
                        | CArr (_ :: _) => well_nested c
                        | _ => false
                        end) items' = true).
    { apply forallb_forall. intros c Hc.
      apply list_elem_of_In in Hc. rewrite <- Hperm in Hc.
      destruct (well_nested_children items c Hwf Hpos Hc)
        as (Hc' & c' & cs & ->). exact Hc'. }
    destruct items' as [|[q|l] cs]; [reflexivity | discriminate | exact Hall]. }
  assert (Htr' : transformable matrix (CArr items') = true).
  { unfold transformable in *.
    rewrite leaf_positions_array in * by assumption.
    rewrite forallb_forall in *. intros p Hp. apply Htr.
    apply in_flat_map in Hp as (c & Hc & Hp). apply in_flat_map.
    exists c. split; [|exact Hp].
    apply list_elem_of_In. rewrite Hperm. by apply list_elem_of_In. }
  destruct (array_inside_some_part matrix planes items Hwf Hpos Htr)
    as (b & Hb & Hiff).
  destruct (array_inside_some_part matrix planes items' Hwf' Hpos' Htr')
    as (b' & Hb' & Hiff').
  rewrite Hb, Hb'. f_equal.
  assert (Heq : b' = true ↔ b = true).
  { rewrite Hiff, Hiff'. split; intros (c & Hc & Hin); exists c;
      (split; [|exact Hin]); [by rewrite Hperm | by rewrite <- Hperm]. }
  destruct b, b'; try reflexivity.
  - exact (proj2 Heq eq_refl).
  - symmetry. exact (proj1 Heq eq_refl).
Qed.

Lemma check_mono_general (matrix : Matrix4)
    (small large : gmap string Plane) (coords : Coords) :
  (∀ point, coordIsInPlanes large point = true →
            coordIsInPlanes small point = true) →
  (checkIfCoordsAreInsideFrustum matrix large coords = Ok true →
   checkIfCoordsAreInsideFrustum matrix small coords = Ok true)
  ∧ (checkIfCoordsAreInsideFrustum matrix large coords = Ok false →
     ∃ b, checkIfCoordsAreInsideFrustum matrix small coords = Ok b).
Proof.
  intros Hmono.
  assert (Hleaf : ∀ c,
    (transformedCoordIsInPlanes matrix large c = Ok true →
     transformedCoordIsInPlanes matrix small c = Ok true)
    ∧ (transformedCoordIsInPlanes matrix large c = Ok false →
       ∃ b, transformedCoordIsInPlanes matrix small c = Ok b)).
  { intros c. unfold transformedCoordIsInPlanes.
    destruct (Matrix4_transform matrix c) as [point|e]; simpl.
    - split; [|eauto]. intros [= Hin]. by rewrite (Hmono _ Hin).
    - split; discriminate. }
  induction coords as [q|items IH] using Coords_nested_ind.
  - split; discriminate.
  - destruct items as [|[q|l] cs].
    + simpl. split; eauto.
    + apply Hleaf.
    + cbn [checkIfCoordsAreInsideFrustum]. apply Array_some_mono.
      intros c Hc. rewrite Forall_forall in IH.
      destruct c as [q|[|[q|l'] cs']]; try apply Hleaf.
      apply (IH _ Hc).
Qed.

(** X7. A frustum with fewer planes contains more: when every plane of
    [small] is a plane of [large], a point that passes [large] passes
    [small], and a structure reported inside [large] is reported inside
    [small]. *)
Theorem fewer_planes_contain_more (matrix : Matrix4)
    (small large : gmap string Plane) (coords : Coords) :
  small ⊆ large →
  (∀ point, coordIsInPlanes large point = true →
            coordIsInPlanes small point = true)
  ∧ (checkIfCoordsAreInsideFrustum matrix large coords = Ok true →
     checkIfCoordsAreInsideFrustum matrix small coords = Ok true).
Proof.
  intros Hsub.
  assert (Hmono : ∀ point, coordIsInPlanes large point = true →
                           coordIsInPlanes small point = true).
  { intros point. rewrite !coordIsInPlanes_spec. intros Hin name p Hp.
    apply (Hin name p). by eapply lookup_weaken. }
  split; [exact Hmono|].
  apply (check_mono_general matrix small large coords Hmono).
Qed.

(** X8. A point is rejected exactly when some plane of the set has
    [distance ≤ dot(normal, point)]: a point on a plane is outside. *)
Theorem outside_iff_some_plane_rejects (planes : gmap string Plane)
    (point : list Qc) :
  coordIsInPlanes planes point = false
  ↔ ∃ name p, planes !! name = Some p
              ∧ distance p ≤ Vector3_dot (normal p) point.
Proof.
  split.
  - intros Hout.
    assert (Hex : Exists
              (fun kp : string * Plane =>
                 ¬ Vector3_dot (normal kp.2) point < distance kp.2)
              (map_to_list planes)).
    { apply not_Forall_Exists; [intros kp; apply _|].
      intros Hall.
      assert (Hin : coordIsInPlanes planes point = true).
      { apply coordIsInPlanes_spec. intros name p Hp.
        rewrite Forall_forall in Hall.
        apply (Hall (name, p)). by apply elem_of_map_to_list. }
      congruence. }
    apply Exists_exists in Hex as ([name p] & Hkp & Hnlt).
    exists name, p. split; [by apply elem_of_map_to_list|].
    by apply Qcnot_lt_le.
  - intros (name & p & Hp & Hle).
    destruct (coordIsInPlanes planes point) eqn:Hin; [|reflexivity].
    exfalso. apply coordIsInPlanes_spec in Hin.
    specialize (Hin name p Hp). by apply Qcle_not_lt in Hle.
Qed.

Lemma parts_self (c : Coords) : c ∈ parts c.
Proof. destruct c; left. Qed.

Lemma parts_child (items : list Coords) (c c' : Coords) :
  c ∈ items → c' ∈ parts c → c' ∈ parts (CArr items).
Proof.
  intros Hc Hc'. cbn [parts]. right. apply list_elem_of_In, in_flat_map.
  exists c. split; by apply list_elem_of_In.
Qed.

(** X9. The check raises nothing of its own on an array: when it raises,
    either the structure is a bare number and the error is the [TypeError]
    of [coords.some], or the error is the one that [matrix.transform]
    raised on the structure itself or on something nested in it. *)
Theorem check_throws_only_from_transform (matrix : Matrix4)
    (planes : gmap string Plane) (coords : Coords) (e : JsError) :
  checkIfCoordsAreInsideFrustum matrix planes coords = Throw e →
  (∃ q, coords = CNum q ∧ e = TypeError "coords.some is not a function")
  ∨ ∃ c, c ∈ parts coords ∧ Matrix4_transform matrix c = Throw e.
Proof.
  assert (Hleaf : ∀ c, transformedCoordIsInPlanes matrix planes c = Throw e →
                       Matrix4_transform matrix c = Throw e).
  { intros c. unfold transformedCoordIsInPlanes.
    destruct (Matrix4_transform matrix c) as [point|e']; simpl.
    - discriminate.
    - intros [= ->]. reflexivity. }
  induction coords as [q|items IH] using Coords_nested_ind.
  { intros [= <-]. left. by exists q. }
  intros Hrun. right.
  destruct items as [|[q|l] cs].
  - discriminate.
  - exists (CArr (CNum q :: cs)). split; [apply parts_self | by apply Hleaf].
  - cbn [checkIfCoordsAreInsideFrustum] in Hrun.
    apply Array_some_throw in Hrun as (c & Hc & Hrun).
    rewrite Forall_forall in IH.
    assert (Hhere : transformedCoordIsInPlanes matrix planes c = Throw e →
                    ∃ c', c' ∈ parts (CArr (CArr l :: cs))
                          ∧ Matrix4_transform matrix c' = Throw e).
    { intros Hc'. exists c. split; [|by apply Hleaf].
      eapply parts_child; [exact Hc | apply parts_self]. }
    destruct c as [q|[|[q|l'] cs']]; [by apply Hhere ..|].
    destruct (IH _ Hc Hrun) as [(q & Hq & _)|(c' & Hc' & Hex)];
      [discriminate|].
    exists c'. split; [by eapply parts_child | exact Hex].
Qed.

End FrustumMore.

Lemma array_inside_iff_some_part_witness :
  ∃ b, checkIfCoordsAreInsideFrustum (H := Affine.mathgl) Affine.identity
         (plane_x (Z2Qc 10))
         (CArr [CArr [CNum 0; CNum 0]; CArr [CNum (Z2Qc 1); CNum (Z2Qc 1)]])
       = Ok b
       ∧ (b = true
          ↔ ∃ c, c ∈ [CArr [CNum 0; CNum 0];
                      CArr [CNum (Z2Qc 1); CNum (Z2Qc 1)]]
                 ∧ checkIfCoordsAreInsideFrustum (H := Affine.mathgl)
                     Affine.identity (plane_x (Z2Qc 10)) c = Ok true).
Proof.
  apply (array_inside_iff_some_part (H := Affine.mathgl)); reflexivity.
Defined.

Lemma array_inside_permutation_witness :
  checkIfCoordsAreInsideFrustum (H := Affine.mathgl) Affine.identity
    (plane_x (Z2Qc 10))
    (CArr [CArr [CNum (Z2Qc 20); CNum 0]; CArr [CNum 0; CNum 0]])
  = checkIfCoordsAreInsideFrustum (H := Affine.mathgl) Affine.identity
      (plane_x (Z2Qc 10))
      (CArr [CArr [CNum 0; CNum 0]; CArr [CNum (Z2Qc 20); CNum 0]]).
Proof.
  apply (array_inside_permutation (H := Affine.mathgl));
    [reflexivity | reflexivity | reflexivity | apply perm_swap].
Defined.

Lemma fewer_planes_contain_more_witness :
  checkIfCoordsAreInsideFrustum (H := Affine.mathgl) Affine.identity ∅
    point_origin
  = Ok true.
Proof.
  apply (proj2 (fewer_planes_contain_more (H := Affine.mathgl)
                  Affine.identity ∅ (plane_x (Z2Qc 10)) point_origin
                  (map_empty_subseteq _))).
  reflexivity.
Defined.

Lemma outside_iff_some_plane_rejects_witness :
  coordIsInPlanes (H := Affine.mathgl) (plane_x 0) [0; 0; 0] = false
  ↔ ∃ name p, plane_x 0 !! name = Some p
              ∧ distance p ≤ Affine.dot (normal p) [0; 0; 0].
Proof.
  apply (outside_iff_some_plane_rejects (H := Affine.mathgl)).
Defined.

Lemma check_throws_only_from_transform_witness :
  (∃ q, CArr [CArr []; CArr [CNum 0; CNum 0]] = CNum q
        ∧ Error "Illegal vector" = TypeError "coords.some is not a function")
  ∨ ∃ c, c ∈ parts (CArr [CArr []; CArr [CNum 0; CNum 0]])
         ∧ Affine.transform Affine.identity c
           = Throw (Error "Illegal vector").
Proof.
  apply (check_throws_only_from_transform (H := Affine.mathgl)
           Affine.identity ∅). reflexivity.
Defined.

(** ** More on the rendered-feature collector *)

Lemma renderedLoop_output (p : string) :
  ∀ (fs : list PickingInfo) (cache : gset JsValue) (acc l : list Feature),
    renderedLoop p fs cache acc = Ok l →
    ∃ out,
      l = acc ++ out
      ∧ (∀ acc', renderedLoop p (picked out) cache acc' = Ok (acc' ++ out))
      ∧ (∀ f, f ∈ fs →
           ∃ v, getFeatureUniqueId (object f) p = Ok v
                ∧ (v ∈ cache
                   ∨ ∃ f', f' ∈ out ∧ getFeatureUniqueId f' p = Ok v)).
Proof.
  induction fs as [|f fs IH]; intros cache acc l Hrun; simpl in Hrun.
  - injection Hrun as <-. exists []. rewrite app_nil_r.
    split; [reflexivity|]. split.
    + intros acc'. simpl. by rewrite app_nil_r.
    + intros f Hf. inversion Hf.
  - apply bind_Ok in Hrun as (v & Hv & Hrun).
    destruct (strict_equals v minus_one) eqn:Hse.
    + destruct (IH _ _ _ Hrun) as (out & -> & Hidem & Hcompl).
      exists (object f :: out). split; [by rewrite <- app_assoc|]. split.
      * intros acc'. simpl. rewrite Hv. simpl. rewrite Hse.
        rewrite Hidem. by rewrite <- app_assoc.
      * intros g Hg. apply elem_of_cons in Hg as [->|Hg].
        -- exists v. split; [exact Hv|]. right. exists (object f).
           split; [left | exact Hv].
        -- destruct (Hcompl g Hg) as (w & Hw & [Hin|(f' & Hf' & Hid)]).
           ++ exists w. split; [exact Hw | by left].
           ++ exists w. split; [exact Hw|]. right. exists f'.
              split; [by right | exact Hid].
    + destruct (bool_decide (v ∈ cache)) eqn:Hin; simpl in Hrun.
      * apply bool_decide_eq_true_1 in Hin.
        destruct (IH _ _ _ Hrun) as (out & -> & Hidem & Hcompl).
        exists out. split; [reflexivity|]. split; [exact Hidem|].
        intros g Hg. apply elem_of_cons in Hg as [->|Hg].
        -- exists v. split; [exact Hv | by left].
        -- apply (Hcompl g Hg).
      * destruct (IH _ _ _ Hrun) as (out & -> & Hidem & Hcompl).
        exists (object f :: out). split; [by rewrite <- app_assoc|]. split.
        -- intros acc'. simpl. rewrite Hv. simpl. rewrite Hse, Hin. simpl.
           rewrite Hidem. by rewrite <- app_assoc.
        -- intros g Hg. apply elem_of_cons in Hg as [->|Hg].
           ++ exists v. split; [exact Hv|]. right. exists (object f).
              split; [left | exact Hv].
           ++ destruct (Hcompl g Hg) as (w & Hw & [Hw'|(f' & Hf' & Hid)]).
              ** exists w. split; [exact Hw|].
                 apply elem_of_union in Hw' as [Hw'|Hw'].
                 --- apply elem_of_singleton in Hw' as ->. right.
                     exists (object f). split; [left | exact Hv].
                 --- by left.
              ** exists w. split; [exact Hw|]. right. exists f'.
                 split; [by right | exact Hid].
Qed.

(** X10. Collecting is idempotent: picking the features that
    [getRenderedFeatures] returned and collecting them again returns the
    same list. *)
Theorem getRenderedFeatures_idempotent (p : string)
    (features : list PickingInfo) (l : list Feature) :
  getRenderedFeatures p features = Ok l →
  getRenderedFeatures p (picked l) = Ok l.
Proof.
  unfold getRenderedFeatures. intros Hrun.
  destruct (renderedLoop_output p _ _ _ _ Hrun) as (out & -> & Hidem & _).
  simpl. apply (Hidem []).
Qed.

(** X11. No identity is lost: for every picked feature the returned list
    holds a feature of the same identity. *)
Theorem getRenderedFeatures_represents_every_identity (p : string)
    (features : list PickingInfo) (l : list Feature) :
  getRenderedFeatures p features = Ok l →
  ∀ f, f ∈ features →
    ∃ v f', getFeatureUniqueId (object f) p = Ok v
            ∧ f' ∈ l ∧ getFeatureUniqueId f' p = Ok v.
Proof.
  unfold getRenderedFeatures. intros Hrun f Hf.
  destruct (renderedLoop_output p _ _ _ _ Hrun) as (out & -> & _ & Hcompl).
  destruct (Hcompl f Hf) as (v & Hv & [Hin|(f' & Hf' & Hid)]).
  - by apply not_elem_of_empty in Hin.
  - exists v, f'. simpl. eauto.
Qed.

Lemma getRenderedFeatures_idempotent_witness :
  getRenderedFeatures EmptyString (picked [numbered_1; anonymous_1])
  = Ok [numbered_1; anonymous_1].
Proof.
  apply (getRenderedFeatures_idempotent EmptyString picked_scenario).
  reflexivity.
Defined.

Lemma getRenderedFeatures_represents_every_identity_witness :
  ∃ v f', getFeatureUniqueId numbered_1_again EmptyString = Ok v
          ∧ f' ∈ [numbered_1; anonymous_1]
          ∧ getFeatureUniqueId f' EmptyString = Ok v.
Proof.
  apply (getRenderedFeatures_represents_every_identity EmptyString
           picked_scenario [numbered_1; anonymous_1])
    with (f := {| object := numbered_1_again |}).
  - reflexivity.
  - right. left.
Defined.

(** ** More on the viewport aggregator *)

Section ViewportMore.
Context `{MathGL}.

Lemma viewportFilter_cases (matrix : Matrix4) (planes : gmap string Plane)
    (p : string) (f : Feature) (cache cache1 : gset JsValue) (keep : bool) :
  viewportFilter matrix planes p f cache = Ok (keep, cache1) →
  ∃ v, getFeatureUniqueId f p = Ok v
       ∧ keep = negb (bool_decide (v ∈ cache))
                && inside_frustum matrix planes f
       ∧ cache1 = (if keep then {[v]} ∪ cache else cache).
Proof.
  unfold viewportFilter, inside_frustum. intros Hrun.
  apply bind_Ok in Hrun as (v & Hv & Hrun). exists v. split; [exact Hv|].
  destruct (bool_decide (v ∈ cache)); simpl.
  - by injection Hrun as <- <-.
  - apply bind_Ok in Hrun as (inside & Hin & Hrun).
    destruct (geometry f) as [g|]; [|discriminate].
    destruct (coordinates g) as [coords|]; [|discriminate].
    rewrite Hin. destruct inside; by injection Hrun as <- <-.
Qed.

Lemma filterTileData_output (matrix : Matrix4) (planes : gmap string Plane)
    (p : string) :
  ∀ (data : list Feature) (cache cache2 : gset JsValue)
    (kept : list Feature),
    filterTileData matrix planes p data cache = Ok (kept, cache2) →
    sublist kept data
    ∧ cache ⊆ cache2
    ∧ (∀ f, f ∈ kept →
         inside_frustum matrix planes f = true
         ∧ ∃ v, getFeatureUniqueId f p = Ok v ∧ v ∈ cache2)
    ∧ (∀ v, v ∈ cache2 →
         v ∈ cache ∨ ∃ f, f ∈ kept ∧ getFeatureUniqueId f p = Ok v)
    ∧ (∀ f, f ∈ data →
         ∃ v, getFeatureUniqueId f p = Ok v
              ∧ (inside_frustum matrix planes f = true → v ∈ cache2)).
Proof.
  induction data as [|f data IH]; intros cache cache2 kept Hrun;
    simpl in Hrun.
  - injection Hrun as <- <-. split; [|split; [|split; [|split]]].
    + constructor.
    + reflexivity.
    + intros f Hf. inversion Hf.
    + intros v Hv. by left.
    + intros f Hf. inversion Hf.
  - apply bind_Ok in Hrun as ([keep cache1] & Hf & Hrun).
    apply bind_Ok in Hrun as ([kept' cache2'] & Hrest & Hrun).
    injection Hrun as <- <-.
    apply viewportFilter_cases in Hf as (v & Hv & Hkeep & Hc1).
    destruct (IH _ _ _ Hrest) as (Hsub & Hmono & Hsound & Hrep & Hcompl).
    assert (Hc01 : cache ⊆ cache1).
    { subst cache1. destruct keep; [apply union_subseteq_r | reflexivity]. }
    split; [|split; [|split; [|split]]].
    + destruct keep; [by apply sublist_skip | by apply sublist_cons].
    + by transitivity cache1.
    + intros g Hg. destruct keep.
      * apply elem_of_cons in Hg as [->|Hg]; [|by apply Hsound].
        symmetry in Hkeep. apply andb_true_iff in Hkeep as [_ Hin].
        split; [exact Hin|]. exists v. split; [exact Hv|].
        apply Hmono. subst cache1.
        apply elem_of_union. left. by apply elem_of_singleton.
      * by apply Hsound.
    + intros w Hw. destruct (Hrep w Hw) as [Hw1|(g & Hg & Hgw)].
      * subst cache1. destruct keep.
        -- apply elem_of_union in Hw1 as [Hw1|Hw1]; [|by left].
           apply elem_of_singleton in Hw1 as ->. right.
           exists f. split; [left | exact Hv].
        -- by left.
      * right. exists g. split; [|exact Hgw].
        destruct keep; [by right | exact Hg].
    + intros g Hg. apply elem_of_cons in Hg as [->|Hg]; [|by apply Hcompl].
      exists v. split; [exact Hv|]. intros Hin. apply Hmono.
      rewrite Hin, andb_true_r in Hkeep. subst cache1.
      destruct (decide (v ∈ cache)) as [Hvc|Hvc].
      * rewrite (bool_decide_eq_true_2 _ Hvc) in Hkeep. subst keep.
        exact Hvc.
      * rewrite (bool_decide_eq_false_2 _ Hvc) in Hkeep. subst keep.
        apply elem_of_union. left. by apply elem_of_singleton.
Qed.

Lemma forEachSelectedTile_output (planes : gmap string Plane) (p : string) :
  ∀ (selected : list Tile) (cache : gset JsValue) (acc l : list Feature),
    forEachSelectedTile planes p selected cache acc = Ok l →
    ∃ out,
      l = acc ++ out
      ∧ sublist out (decoded_data selected)
      ∧ (∀ f, f ∈ out →
           ∃ tile data,
             tile ∈ selected ∧ tile_data tile = Some data ∧ f ∈ data
             ∧ inside_frustum (placement tile) planes f = true)
      ∧ (∀ tile data f,
           tile ∈ selected → tile_data tile = Some data → f ∈ data →
           ∃ v, getFeatureUniqueId f p = Ok v
                ∧ (inside_frustum (placement tile) planes f = true →
                   v ∈ cache
                   ∨ ∃ f', f' ∈ out ∧ getFeatureUniqueId f' p = Ok v)).
Proof.
  induction selected as [|tile selected IH]; intros cache acc l Hrun;
    simpl in Hrun.
  - injection Hrun as <-. exists []. rewrite app_nil_r.
    split; [reflexivity|]. split; [constructor|]. split.
    + intros f Hf. inversion Hf.
    + intros tile data f Ht. inversion Ht.
  - unfold decoded_data. rewrite fmap_cons. simpl.
    destruct (tile_data tile) as [data|] eqn:Hdata.
    + apply bind_Ok in Hrun as ([kept cache1] & Hf & Hrun).
      fold (placement tile) in Hf.
      destruct (filterTileData_output _ _ _ _ _ _ _ Hf)
        as (Hsub & Hmono & Hsound & Hrep & Hcompl).
      destruct (IH _ _ _ Hrun) as (out & -> & Hsub' & Hsound' & Hcompl').
      exists (kept ++ out). split; [by rewrite app_assoc|].
      split; [by apply sublist_app|]. split.
      * intros f Hfin. apply elem_of_app in Hfin as [Hfin|Hfin].
        -- exists tile, data. split; [left|]. split; [exact Hdata|].
           split; [by eapply elem_of_sublist | by apply Hsound].
        -- destruct (Hsound' f Hfin) as (t & d & Ht & Hd & Hfd & Hin).
           exists t, d. split; [by right | done].
      * assert (Hcache1 : ∀ v, v ∈ cache1 →
                  v ∈ cache
                  ∨ ∃ f', f' ∈ kept ++ out ∧ getFeatureUniqueId f' p = Ok v).
        { intros v Hv. destruct (Hrep v Hv) as [Hvc|(g & Hg & Hgv)];
            [by left|]. right. exists g. split; [|exact Hgv].
          apply elem_of_app. by left. }
        intros t d f Ht Hd Hfd. apply elem_of_cons in Ht as [->|Ht].
        -- rewrite Hdata in Hd. injection Hd as <-.
           destruct (Hcompl f Hfd) as (v & Hv & Hin).
           exists v. split; [exact Hv|]. intros Hins.
           apply Hcache1, Hin, Hins.
        -- destruct (Hcompl' t d f Ht Hd Hfd) as (v & Hv & Hin).
           exists v. split; [exact Hv|]. intros Hins.
           destruct (Hin Hins) as [Hvc|(g & Hg & Hgv)].
           ++ by apply Hcache1.
           ++ right. exists g. split; [|exact Hgv].
              apply elem_of_app. by right.
    + destruct (IH _ _ _ Hrun) as (out & -> & Hsub' & Hsound' & Hcompl').
      exists out. split; [reflexivity|]. split; [exact Hsub'|]. split.
      * intros f Hfin.
        destruct (Hsound' f Hfin) as (t & d & Ht & Hd & Hfd & Hin).
        exists t, d. split; [by right | done].
      * intros t d f Ht Hd Hfd. apply elem_of_cons in Ht as [->|Ht].
        -- rewrite Hdata in Hd. discriminate.
        -- by eapply Hcompl'.
Qed.

(** X12. The list that [getViewportFeatures] returns is a selection, in
    order, of the features of the decoded tiles taken tile after tile:
    nothing is invented, duplicated or reordered. *)
Theorem getViewportFeatures_in_tile_order (selected : list Tile) (p : string)
    (planes : gmap string Plane) (l : list Feature) :
  getViewportFeatures selected p planes = Ok l →
  sublist l (decoded_data selected).
Proof.
  unfold getViewportFeatures. intros Hrun.
  destruct (forEachSelectedTile_output _ _ _ _ _ _ Hrun)
    as (out & -> & Hsub & _). exact Hsub.
Qed.

(** X13. Every returned feature belongs to a selected tile and passed the
    frustum test under the placement transform of that tile. *)
Theorem getViewportFeatures_only_inside (selected : list Tile) (p : string)
    (planes : gmap string Plane) (l : list Feature) :
  getViewportFeatures selected p planes = Ok l →
  ∀ f, f ∈ l →
    ∃ tile data,
      tile ∈ selected ∧ tile_data tile = Some data ∧ f ∈ data
      ∧ inside_frustum (placement tile) planes f = true.
Proof.
  unfold getViewportFeatures. intros Hrun.
  destruct (forEachSelectedTile_output _ _ _ _ _ _ Hrun)
    as (out & -> & _ & Hsound & _). exact Hsound.
Qed.

(** X14. No visible identity is lost: for every feature of a selected
    tile that passes the frustum test under the placement of its tile, the
    returned list holds a feature of the same identity. *)
Theorem getViewportFeatures_represents_every_visible_identity
    (selected : list Tile) (p : string) (planes : gmap string Plane)
    (l : list Feature) :
  getViewportFeatures selected p planes = Ok l →
  ∀ tile data f,
    tile ∈ selected → tile_data tile = Some data → f ∈ data →
    inside_frustum (placement tile) planes f = true →
    ∃ v f', getFeatureUniqueId f p = Ok v
            ∧ f' ∈ l ∧ getFeatureUniqueId f' p = Ok v.
Proof.
  unfold getViewportFeatures. intros Hrun tile data f Ht Hd Hf Hin.
  destruct (forEachSelectedTile_output _ _ _ _ _ _ Hrun)
    as (out & -> & _ & _ & Hcompl).
  destruct (Hcompl tile data f Ht Hd Hf) as (v & Hv & Hrep).
  destruct (Hrep Hin) as [Hvc|(f' & Hf' & Hid)];
    [by apply not_elem_of_empty in Hvc|].
  exists v, f'. simpl. eauto.
Qed.

Lemma forEachSelectedTile_skips_pending (planes : gmap string Plane)
    (p : string) :
  ∀ (selected : list Tile) (cache : gset JsValue) (acc : list Feature),
    forEachSelectedTile planes p (filter (λ t, is_decoded t) selected)
      cache acc
    = forEachSelectedTile planes p selected cache acc.
Proof.
  induction selected as [|tile selected IH]; intros cache acc;
    [reflexivity|].
  destruct (tile_data tile) as [data|] eqn:Hdata.
  - rewrite filter_cons_True by (unfold is_decoded; by rewrite Hdata).
    simpl. rewrite Hdata.
    destruct (filterTileData _ planes p data cache) as [[kept cache1]|e];
      simpl; [apply IH | reflexivity].
  - rewrite filter_cons_False
      by (unfold is_decoded; rewrite Hdata; by intros []).
    simpl. rewrite Hdata. apply IH.
Qed.

(** X15. Tiles whose data is not an array are skipped: removing them from
    the selection changes neither the answer nor an error. *)
Theorem getViewportFeatures_skips_pending_tiles (selected : list Tile)
    (p : string) (planes : gmap string Plane) :
  getViewportFeatures (filter (λ t, is_decoded t) selected) p planes
  = getViewportFeatures selected p planes.
Proof. apply forEachSelectedTile_skips_pending. Qed.

End ViewportMore.

Lemma getViewportFeatures_in_tile_order_witness :
  sublist [river_west] (decoded_data tiles_river).
Proof.
  apply (getViewportFeatures_in_tile_order (H := Affine.mathgl)
           tiles_river EmptyString ∅).
  reflexivity.
Defined.

Lemma getViewportFeatures_only_inside_witness :
  ∃ tile data,
    tile ∈ tiles_river ∧ tile_data tile = Some data ∧ river_west ∈ data
    ∧ inside_frustum (H := Affine.mathgl) (placement tile) ∅ river_west
      = true.
Proof.
  apply (getViewportFeatures_only_inside (H := Affine.mathgl)
           tiles_river EmptyString ∅ [river_west]).
  - reflexivity.
  - left.
Defined.

Lemma getViewportFeatures_represents_every_visible_identity_witness :
  ∃ v f', getFeatureUniqueId river_east EmptyString = Ok v
          ∧ f' ∈ [river_west]
          ∧ getFeatureUniqueId f' EmptyString = Ok v.
Proof.
  apply (getViewportFeatures_represents_every_visible_identity
           (H := Affine.mathgl) tiles_river EmptyString ∅ [river_west])
    with (tile := {| tile_x := 1; tile_y := 0; tile_z := 1;
                     tile_data := Some [river_east] |})
         (data := [river_east]).
  - reflexivity.
  - right. left.
  - reflexivity.
  - left.
  - reflexivity.
Defined.

(** ** The two collectors compared *)

Section Agreement.
Context `{MathGL}.

Lemma viewportFilter_identified_inside (matrix : Matrix4)
    (planes : gmap string Plane) (p : string) (f : Feature) (v : JsValue)
    (cache : gset JsValue) :
  getFeatureUniqueId f p = Ok v →
  inside_frustum matrix planes f = true →
  viewportFilter matrix planes p f cache
  = Ok (negb (bool_decide (v ∈ cache)),
        if bool_decide (v ∈ cache) then cache else {[v]} ∪ cache).
Proof.
  unfold viewportFilter, inside_frustum. intros Hv Hin. rewrite Hv. simpl.
  destruct (bool_decide (v ∈ cache)); [reflexivity|].
  destruct (geometry f) as [g|]; [|discriminate].
  destruct (coordinates g) as [coords|]; [|discriminate].
  destruct (checkIfCoordsAreInsideFrustum matrix planes coords)
    as [b|e]; [|discriminate].
  subst b. reflexivity.
Qed.

Lemma renderedLoop_through_tile (matrix : Matrix4)
    (planes : gmap string Plane) (p : string) :
  ∀ (data : list Feature) (rest : list PickingInfo)
    (cache : gset JsValue) (acc : list Feature),
    forallb
      (fun f =>
         match getFeatureUniqueId f p with
         | Ok v =>
             negb (strict_equals v minus_one)
             && inside_frustum matrix planes f
         | Throw _ => false
         end) data = true →
    ∃ kept cache2,
      filterTileData matrix planes p data cache = Ok (kept, cache2)
      ∧ renderedLoop p (picked data ++ rest) cache acc
        = renderedLoop p rest cache2 (acc ++ kept).
Proof.
  induction data as [|f data IH]; intros rest cache acc Hall.
  - exists [], cache. simpl. by rewrite app_nil_r.
  - simpl in Hall. apply andb_true_iff in Hall as [Hf Hall].
    destruct (getFeatureUniqueId f p) as [v|e] eqn:Hv; [|discriminate].
    apply andb_true_iff in Hf as [Hse Hin].
    apply negb_true_iff in Hse.
    simpl. rewrite Hv. simpl. rewrite Hse.
    rewrite (viewportFilter_identified_inside _ _ _ _ _ cache Hv Hin).
    simpl.
    destruct (bool_decide (v ∈ cache)); simpl.
    + destruct (IH rest cache acc Hall) as (kept & cache2 & Hfil & Hloop).
      exists kept, cache2. rewrite Hfil. simpl. split; [reflexivity|].
      exact Hloop.
    + destruct (IH rest ({[v]} ∪ cache) (acc ++ [f]) Hall)
        as (kept & cache2 & Hfil & Hloop).
      exists (f :: kept), cache2. rewrite Hfil. simpl.
      split; [reflexivity|]. rewrite Hloop. by rewrite <- app_assoc.
Qed.

Lemma forEachSelectedTile_as_renderedLoop (planes : gmap string Plane)
    (p : string) :
  ∀ (selected : list Tile) (cache : gset JsValue) (acc : list Feature),
    all_identified_and_inside planes p selected = true →
    forEachSelectedTile planes p selected cache acc
    = renderedLoop p (picked (decoded_data selected)) cache acc.
Proof.
  induction selected as [|tile selected IH]; intros cache acc Hall;
    [reflexivity|].
  unfold all_identified_and_inside in Hall. simpl in Hall.
  apply andb_true_iff in Hall as [Htile Hall].
  change (decoded_data (tile :: selected))
    with (default [] (tile_data tile) ++ decoded_data selected).
  unfold picked at 1. rewrite fmap_app. fold (picked (decoded_data selected)).
  simpl. destruct (tile_data tile) as [data|]; simpl.
  - destruct (renderedLoop_through_tile (placement tile) planes p data
                (picked (decoded_data selected)) cache acc Htile)
      as (kept & cache2 & Hfil & Hloop).
    unfold placement in Hfil. rewrite Hfil. simpl.
    unfold picked in Hloop at 1. rewrite Hloop. by apply IH.
  - by apply IH.
Qed.

(** X16. The two collectors agree where the sentinel plays no part: when
    every feature of the decoded tiles has an identity other than [-1] and
    is inside the frustum, [getViewportFeatures] returns what
    [getRenderedFeatures] returns on the same features picked in tile
    order. *)
Theorem collectors_agree_without_sentinel (selected : list Tile)
    (p : string) (planes : gmap string Plane) :
  all_identified_and_inside planes p selected = true →
  getViewportFeatures selected p planes
  = getRenderedFeatures p (picked (decoded_data selected)).
Proof. apply forEachSelectedTile_as_renderedLoop. Qed.

End Agreement.

Lemma collectors_agree_without_sentinel_witness :
  getViewportFeatures (H := Affine.mathgl) tiles_river EmptyString ∅
  = getRenderedFeatures EmptyString (picked (decoded_data tiles_river)).
Proof.
  apply (collectors_agree_without_sentinel (H := Affine.mathgl)).
  reflexivity.
Defined.

(** ** Hovering and highlighting *)

Lemma strict_equals_eq (a b : JsValue) : strict_equals a b = true → a = b.
Proof.
  unfold strict_equals.
  destruct a as [| |?|[?| |?]|?|?], b as [| |?|[?| |?]|?|?];
    first [discriminate | apply bool_decide_eq_true_1].
Qed.

Lemma strict_equals_refl (a : JsValue) :
  a ≠ VNumber NaN → strict_equals a a = true.
Proof.
  intros Hn. unfold strict_equals.
  destruct a as [| |?|[?| |?]|?|?]; try (by apply bool_decide_eq_true_2).
  congruence.
Qed.

Lemma findIndex_from_spec {A : Type} (cb : A → result bool) :
  ∀ (xs : list A) (i r : Z),
    findIndex_from cb i xs = Ok r →
    (r = (-1)%Z ∧ ∀ x, x ∈ xs → cb x = Ok false)
    ∨ ∃ n x, r = (i + Z.of_nat n)%Z ∧ xs !! n = Some x ∧ cb x = Ok true
             ∧ ∀ m y, (m < n)%nat → xs !! m = Some y → cb y = Ok false.
Proof.
  induction xs as [|x xs IH]; intros i r Hrun; simpl in Hrun.
  - injection Hrun as <-. left. split; [reflexivity|].
    intros x Hx. inversion Hx.
  - destruct (cb x) as [[|]|e] eqn:Hx; [| |discriminate].
    + injection Hrun as <-. right. exists 0%nat, x.
      split; [simpl; lia|]. split; [reflexivity|]. split; [exact Hx|]. lia.
    + destruct (IH _ _ Hrun) as [[-> Hall]|(n & y & -> & Hn & Hy & Hbefore)].
      * left. split; [reflexivity|]. intros y Hy.
        apply elem_of_cons in Hy as [->|Hy]; [exact Hx | by apply Hall].
      * right. exists (S n), y. split; [lia|]. split; [exact Hn|].
        split; [exact Hy|]. intros [|m] z Hm Hz.
        -- injection Hz as <-. exact Hx.
        -- apply (Hbefore m z); [lia | exact Hz].
Qed.

Lemma findIndex_from_finds {A : Type} (cb : A → result bool) :
  ∀ (xs : list A) (i : Z) (n : nat) (x : A),
    xs !! n = Some x → cb x = Ok true →
    (∀ m y, (m < n)%nat → xs !! m = Some y → ∃ b, cb y = Ok b) →
    ∃ k y, findIndex_from cb i xs = Ok (i + Z.of_nat k)%Z
           ∧ (k ≤ n)%nat ∧ xs !! k = Some y ∧ cb y = Ok true.
Proof.
  induction xs as [|x0 xs IH]; intros i n x Hn Hx Hbefore;
    [by rewrite lookup_nil in Hn|].
  simpl. destruct n as [|n].
  - injection Hn as ->. rewrite Hx. exists 0%nat, x.
    split; [f_equal; simpl; lia|]. split; [lia|]. by split.
  - destruct (Hbefore 0%nat x0) as [b Hb]; [lia | reflexivity|].
    rewrite Hb. destruct b.
    + exists 0%nat, x0. split; [f_equal; simpl; lia|]. split; [lia|]. by split.
    + destruct (IH (i + 1)%Z n x Hn Hx) as (k & y & Hrun & Hk & Hy & Hcb).
      { intros m y Hm Hy. apply (Hbefore (S m) y); [lia | exact Hy]. }
      exists (S k), y. rewrite Hrun.
      split; [f_equal; lia|]. split; [lia|]. by split.
Qed.

Lemma onHover_value (p : string) (hovered : JsValue)
    (feature : option Feature) (v : JsValue) :
  match feature with
  | Some f => getFeatureUniqueId f p
  | None => Ok VUndefined
  end = Ok v →
  onHover p true hovered feature
  = Ok (if bool_decide (v = minus_one) then hovered else v)
  ∧ onHover p false hovered feature = Ok hovered.
Proof.
  intros Hv. split; [|reflexivity].
  unfold onHover. rewrite Hv. simpl.
  destruct (strict_equals v minus_one) eqn:Hse.
  - apply strict_equals_minus_one in Hse.
    rewrite (bool_decide_eq_true_2 _ Hse), andb_false_r. reflexivity.
  - apply strict_equals_minus_one_false in Hse.
    rewrite (bool_decide_eq_false_2 _ Hse), andb_true_r.
    destruct (strict_equals hovered v) eqn:Heq; simpl; [|reflexivity].
    by rewrite (strict_equals_eq _ _ Heq).
Qed.

(** X17. With [autoHighlight], [onHover] leaves in the state the identity
    of the feature under the pointer ([undefined] when there is none),
    except that an identity [-1] leaves the state as it was; without
    [autoHighlight] the state is untouched. *)
Theorem onHover_tracks_identity (p : string) (hovered : JsValue)
    (feature : option Feature) (v : JsValue) :
  match feature with
  | Some f => getFeatureUniqueId f p
  | None => Ok VUndefined
  end = Ok v →
  onHover p true hovered feature
  = Ok (if bool_decide (v = minus_one) then hovered else v)
  ∧ onHover p false hovered feature = Ok hovered.
Proof. apply onHover_value. Qed.

Lemma onHover_never_stores_sentinel (p : string) (autoHighlight : bool)
    (hovered hovered' : JsValue) (feature : option Feature) :
  onHover p autoHighlight hovered feature = Ok hovered' →
  hovered ≠ minus_one → hovered' ≠ minus_one.
Proof.
  unfold onHover. destruct autoHighlight; [|by intros [= <-]].
  intros Hrun Hh. apply bind_Ok in Hrun as (v & Hv & Hrun).
  destruct (strict_equals v minus_one) eqn:Hse.
  - rewrite andb_false_r in Hrun. by injection Hrun as <-.
  - apply strict_equals_minus_one_false in Hse.
    destruct (negb (strict_equals hovered v) && negb false);
      by injection Hrun as <-.
Qed.

Lemma highlighted_index_first_match (hovered highlighted : JsValue)
    (p : string) (tile : Tile) (r : Z) :
  getHighlightedObjectIndex hovered highlighted p tile = Ok r →
  r = (-1)%Z
  ∨ ∃ n data f v,
      r = Z.of_nat n ∧ tile_data tile = Some data ∧ data !! n = Some f
      ∧ getFeatureUniqueId f p = Ok v
      ∧ v = (if isFeatureIdDefined highlighted then highlighted else hovered)
      ∧ isFeatureIdDefined v = true
      ∧ ∀ m g, (m < n)%nat → data !! m = Some g →
          ∃ w, getFeatureUniqueId g p = Ok w ∧ w ≠ v.
Proof.
  unfold getHighlightedObjectIndex.
  destruct (isFeatureIdDefined hovered || isFeatureIdDefined highlighted)
    eqn:Hpresent; [|intros [= <-]; by left].
  destruct (tile_data tile) as [data|]; [|intros [= <-]; by left].
  set (target := if isFeatureIdDefined highlighted then highlighted
                 else hovered).
  intros Hrun. apply findIndex_from_spec in Hrun
    as [[-> _]|(n & f & -> & Hn & Hf & Hbefore)]; [by left|].
  right. apply bind_Ok in Hf as (v & Hv & [= Hse]).
  pose proof (strict_equals_eq _ _ Hse) as Heq.
  exists n, data, f, v. split; [lia|]. split; [reflexivity|].
  split; [exact Hn|]. split; [exact Hv|]. split; [exact Heq|]. split.
  - rewrite Heq. unfold target.
    destruct (isFeatureIdDefined highlighted) eqn:Hhl; [exact Hhl|].
    by rewrite orb_false_r in Hpresent.
  - intros m g Hm Hg. specialize (Hbefore m g Hm Hg).
    apply bind_Ok in Hbefore as (w & Hw & [= Hne]).
    exists w. split; [exact Hw|]. intros ->. congruence.
Qed.

(** X18. When [getHighlightedObjectIndex] answers an index other than
    [-1], that index is within the data of the tile, the feature there has
    the identity to highlight (the [highlightedFeatureId] prop when it is
    defined, else the hovered identity), that identity is defined, and no
    earlier feature of the tile has it. *)
Theorem getHighlightedObjectIndex_first_match (hovered highlighted : JsValue)
    (p : string) (tile : Tile) (r : Z) :
  getHighlightedObjectIndex hovered highlighted p tile = Ok r →
  r = (-1)%Z
  ∨ ∃ n data f v,
      r = Z.of_nat n ∧ tile_data tile = Some data ∧ data !! n = Some f
      ∧ getFeatureUniqueId f p = Ok v
      ∧ v = (if isFeatureIdDefined highlighted then highlighted else hovered)
      ∧ isFeatureIdDefined v = true
      ∧ ∀ m g, (m < n)%nat → data !! m = Some g →
          ∃ w, getFeatureUniqueId g p = Ok w ∧ w ≠ v.
Proof. apply highlighted_index_first_match. Qed.

(** X19. With the [autoHighlight] prop enabled, hovering highlights: after
    [onHover] over a feature of the tile whose identity is defined, not
    [-1] and not [NaN], and with no [highlightedFeatureId],
    [getHighlightedObjectIndex] answers the index of the first feature of
    the tile with that identity, at or before the hovered one (the
    features before it resolving). *)
Theorem hover_then_highlight (p : string) (autoHighlight : bool)
    (hovered highlighted : JsValue)
    (tile : Tile) (data : list Feature) (n : nat) (f : Feature)
    (v : JsValue) :
  autoHighlight = true →
  tile_data tile = Some data →
  data !! n = Some f →
  getFeatureUniqueId f p = Ok v →
  v ≠ minus_one → v ≠ VNumber NaN →
  isFeatureIdDefined v = true →
  isFeatureIdDefined highlighted = false →
  (∀ m g, (m < n)%nat → data !! m = Some g →
          ∃ w, getFeatureUniqueId g p = Ok w) →
  ∃ hovered' k g,
    onHover p autoHighlight hovered (Some f) = Ok hovered'
    ∧ getHighlightedObjectIndex hovered' highlighted p tile
      = Ok (Z.of_nat k)
    ∧ (k ≤ n)%nat ∧ data !! k = Some g
    ∧ getFeatureUniqueId g p = Ok v.
Proof.
  intros -> Hdata Hn Hv Hs Hnan Hdef Hhl Hbefore.
  destruct (onHover_value p hovered (Some f) v Hv) as [Hhover _].
  rewrite (bool_decide_eq_false_2 _ Hs) in Hhover.
  exists v. unfold getHighlightedObjectIndex.
  rewrite Hdef, Hhl, Hdata. simpl.
  destruct (findIndex_from_finds
              (fun feature =>
                 w ← getFeatureUniqueId feature p;
                 Ok (strict_equals w v))
              data 0 n f Hn) as (k & g & Hrun & Hk & Hg & Hcb).
  { rewrite Hv. simpl. by rewrite strict_equals_refl. }
  { intros m y Hm Hy. destruct (Hbefore m y Hm Hy) as [w Hw].
    rewrite Hw. simpl. eauto. }
  exists k, g. split; [exact Hhover|].
  unfold Array_findIndex. rewrite Hrun. split; [f_equal; lia|].
  split; [exact Hk|]. split; [exact Hg|].
  apply bind_Ok in Hcb as (w & Hw & [= Hse]).
  by rewrite <- (strict_equals_eq _ _ Hse).
Qed.

(** X20. With the [autoHighlight] prop enabled, leaving the features
    clears the highlight: [onHover] with nothing under the pointer stores
    [undefined], after which, with no [highlightedFeatureId], no feature of
    any tile is highlighted. *)
Theorem unhover_clears_highlight (p : string) (autoHighlight : bool)
    (hovered highlighted : JsValue) (tile : Tile) :
  autoHighlight = true →
  isFeatureIdDefined highlighted = false →
  onHover p autoHighlight hovered None = Ok VUndefined
  ∧ getHighlightedObjectIndex VUndefined highlighted p tile = Ok (-1)%Z.
Proof.
  intros -> Hhl. split.
  - by destruct (onHover_value p hovered None VUndefined eq_refl).
  - unfold getHighlightedObjectIndex. by rewrite Hhl.
Qed.

(** X21. Hovering never highlights a feature without identity: when the
    hovered identity of the state was not [-1], it is not [-1] after
    [onHover], and, with no [highlightedFeatureId], a feature that
    [getHighlightedObjectIndex] then points at has an identity other than
    [-1]. *)
Theorem hover_never_highlights_anonymous (p : string) (autoHighlight : bool)
    (hovered hovered' highlighted : JsValue) (feature : option Feature)
    (tile : Tile) (r : Z) :
  hovered ≠ minus_one →
  isFeatureIdDefined highlighted = false →
  onHover p autoHighlight hovered feature = Ok hovered' →
  getHighlightedObjectIndex hovered' highlighted p tile = Ok r →
  r = (-1)%Z
  ∨ ∃ n data f v,
      r = Z.of_nat n ∧ tile_data tile = Some data ∧ data !! n = Some f
      ∧ getFeatureUniqueId f p = Ok v ∧ v ≠ minus_one.
Proof.
  intros Hh Hhl Hhover Hidx.
  pose proof (onHover_never_stores_sentinel _ _ _ _ _ Hhover Hh) as Hh'.
  apply highlighted_index_first_match in Hidx
    as [->|(n & data & f & v & -> & Hdata & Hn & Hv & Htarget & _)];
    [by left|].
  right. exists n, data, f, v. rewrite Hhl in Htarget. subst v. eauto 10.
Qed.

Lemma onHover_tracks_identity_witness :
  onHover EmptyString true VUndefined (Some anonymous_1) = Ok VUndefined
  ∧ onHover EmptyString false VUndefined (Some anonymous_1) = Ok VUndefined.
Proof.
  apply (onHover_tracks_identity EmptyString VUndefined (Some anonymous_1)
           minus_one eq_refl).
Defined.

Lemma getHighlightedObjectIndex_first_match_witness :
  1%Z = (-1)%Z
  ∨ ∃ n data f v,
      1%Z = Z.of_nat n ∧ tile_data tile_hover = Some data
      ∧ data !! n = Some f
      ∧ getFeatureUniqueId f EmptyString = Ok v
      ∧ v = (if isFeatureIdDefined VNull then VNull
             else VNumber (Fin (Z2Qc 1)))
      ∧ isFeatureIdDefined v = true
      ∧ ∀ m g, (m < n)%nat → data !! m = Some g →
          ∃ w, getFeatureUniqueId g EmptyString = Ok w ∧ w ≠ v.
Proof.
  apply (getHighlightedObjectIndex_first_match (VNumber (Fin (Z2Qc 1)))
           VNull EmptyString tile_hover 1).
  reflexivity.
Defined.

Lemma hover_then_highlight_witness :
  ∃ hovered' k g,
    onHover EmptyString true VUndefined (Some numbered_1_again)
    = Ok hovered'
    ∧ getHighlightedObjectIndex hovered' VNull EmptyString tile_hover
      = Ok (Z.of_nat k)
    ∧ (k ≤ 2)%nat
    ∧ [anonymous_1; numbered_1; numbered_1_again] !! k = Some g
    ∧ getFeatureUniqueId g EmptyString = Ok (VNumber (Fin (Z2Qc 1))).
Proof.
  apply (hover_then_highlight EmptyString true VUndefined VNull tile_hover
           [anonymous_1; numbered_1; numbered_1_again] 2 numbered_1_again
           (VNumber (Fin (Z2Qc 1))));
    try reflexivity.
  - apply (bool_decide_eq_false_1
             (VNumber (Fin (Z2Qc 1)) = minus_one)). reflexivity.
  - discriminate.
  - intros [|[|m]] g Hm Hg; [| |lia]; injection Hg as <-;
      eexists; reflexivity.
Defined.

Lemma unhover_clears_highlight_witness :
  onHover EmptyString true (VNumber (Fin (Z2Qc 1))) None = Ok VUndefined
  ∧ getHighlightedObjectIndex VUndefined VNull EmptyString tile_hover
    = Ok (-1)%Z.
Proof.
  apply (unhover_clears_highlight EmptyString true
           (VNumber (Fin (Z2Qc 1))) VNull tile_hover); reflexivity.
Defined.

(** With [autoHighlight] disabled the hovered identity stays, and so does
    the highlight it gives. *)
Example unhover_without_autoHighlight :
  onHover EmptyString false (VNumber (Fin (Z2Qc 1))) None
  = Ok (VNumber (Fin (Z2Qc 1)))
  ∧ getHighlightedObjectIndex (VNumber (Fin (Z2Qc 1))) VNull EmptyString
      tile_hover
    = Ok 1%Z.
Proof. split; reflexivity. Qed.

Lemma hover_never_highlights_anonymous_witness :
  1%Z = (-1)%Z
  ∨ ∃ n data f v,
      1%Z = Z.of_nat n ∧ tile_data tile_hover = Some data
      ∧ data !! n = Some f
      ∧ getFeatureUniqueId f EmptyString = Ok v ∧ v ≠ minus_one.
Proof.
  apply (hover_never_highlights_anonymous EmptyString true VUndefined
           (VNumber (Fin (Z2Qc 1))) VNull (Some numbered_1) tile_hover 1).
  - discriminate.
  - reflexivity.
  - reflexivity.
  - reflexivity.
Defined.

(** ** More on the data-update step *)

(** X22. When the metadata fetch fails, the step ends with the wrapped
    error and the layer is left without data: [data] and [tileJSON] are
    [null], the zoom bounds of the state are untouched, and [renderLayers]
    answers [null]. *)
Theorem fetch_failure_leaves_no_data (isURLTemplate : string → bool)
    (load : string → result TileJSON)
    (onDataLoad : option (TileJSON → result TileJSON))
    (props : Props) (state : State)
    (url : string) (e : JsError) {Layers : Type} (super_layers : Layers) :
  props_data props = DataString url →
  isURLTemplate url = false →
  load url = Throw e →
  ∃ state',
    _updateTileData isURLTemplate load onDataLoad props state
    = (state', Throw (Error "An error occurred fetching TileJSON"))
    ∧ state_data state' = DataNull
    ∧ state_tileJSON state' = None
    ∧ state_minZoom state' = state_minZoom state
    ∧ state_maxZoom state' = state_maxZoom state
    ∧ renderLayers super_layers state' = None.
Proof.
  intros Hdata Htpl Hload. unfold _updateTileData, fetchTileJSON.
  rewrite Hdata, Htpl, Hload. simpl. eexists. split; [reflexivity|].
  repeat split.
Qed.

(** X23. Giving the URL of a TileJSON document and giving the document
    itself come to the same state when no [onDataLoad] callback is given,
    or when the callback returns and leaves the document as it was: if the
    loader answers the document (with a truthy [tilejson] member) for the
    URL, both updates end alike. *)
Theorem url_and_document_agree (isURLTemplate : string → bool)
    (load : string → result TileJSON)
    (onDataLoad : option (TileJSON → result TileJSON))
    (url : string) (doc : TileJSON)
    (minZoom maxZoom : NumericProp) (state state0 : State) :
  isURLTemplate url = false →
  load url = Ok doc →
  callOnDataLoad onDataLoad doc = Ok doc →
  truthy (tilejson doc) = true →
  _updateTileData isURLTemplate load onDataLoad
    {| props_data := DataString url;
       props_minZoom := minZoom; props_maxZoom := maxZoom |} state
  = _updateTileData isURLTemplate load onDataLoad
      {| props_data := DataObject doc;
         props_minZoom := minZoom; props_maxZoom := maxZoom |} state0.
Proof.
  intros Htpl Hload Hcb Htj. unfold _updateTileData, fetchTileJSON. simpl.
  rewrite Htpl, Hload, Htj. simpl. by rewrite Hcb.
Qed.

(** A callback that raises separates the two routes: by URL the update
    ends with the error of the callback and no data, by document it does
    not call it. *)
Example raising_callback_separates_routes :
  _updateTileData (fun _ => false) (fun _ => Ok doc_2_10)
    (Some (fun _ => Throw (Error "callback")))
    props_0_14 initial_state
  = ({| state_data := DataNull; state_tileJSON := None;
        state_minZoom := PUndefined; state_maxZoom := PUndefined |},
     Throw (Error "callback")).
Proof. reflexivity. Qed.

Lemma minZoomWith_idempotent (doc : TileJSON) (z : NumericProp) :
  minZoomWith doc (minZoomWith doc z) = minZoomWith doc z.
Proof.
  unfold minZoomWith.
  destruct (minzoom doc) as [| |?|[m| |?]|?|?]; try reflexivity.
  destruct (js_gt (Fin m) (ToNumber z)) eqn:Hgt.
  - simpl. unfold js_gt, js_lt.
    rewrite bool_decide_eq_false_2; [reflexivity|].
    intros Hlt'. by apply Qclt_not_eq in Hlt'.
  - by rewrite Hgt.
Qed.

Lemma maxZoomWith_idempotent (doc : TileJSON) (z : NumericProp) :
  maxZoomWith doc (maxZoomWith doc z) = maxZoomWith doc z.
Proof.
  unfold maxZoomWith.
  destruct (maxzoom doc) as [| |?|[m| |?]|?|?]; try reflexivity.
  destruct (negb (NumericProp_isFinite z) || js_lt (Fin m) (ToNumber z))
    eqn:Hlt.
  - simpl. unfold js_lt.
    rewrite bool_decide_eq_false_2; [reflexivity|].
    intros Hlt'. by apply Qclt_not_eq in Hlt'.
  - by rewrite Hlt.
Qed.

(** X24. The update is stable: running it again with the zoom bounds it
    produced as props (same data, same loader) produces the same state. *)
Theorem updateTileData_stable (isURLTemplate : string → bool)
    (load : string → result TileJSON)
    (onDataLoad : option (TileJSON → result TileJSON)) (props : Props)
    (state state' state0 : State) :
  _updateTileData isURLTemplate load onDataLoad props state = (state', Ok ()) →
  _updateTileData isURLTemplate load onDataLoad
    {| props_data := props_data props;
       props_minZoom := state_minZoom state';
       props_maxZoom := state_maxZoom state' |} state0
  = (state', Ok ()).
Proof.
  unfold _updateTileData, finishUpdate. simpl. intros Hrun.
  destruct (props_data props) as [url|l|d| |].
  - destruct (isURLTemplate url); simpl in *.
    + by injection Hrun as <-.
    + destruct (fetchTileJSON load url ≫= callOnDataLoad onDataLoad)
        as [d|e]; [|discriminate].
      injection Hrun as <-. simpl.
      by rewrite minZoomWith_idempotent, maxZoomWith_idempotent.
  - by injection Hrun as <-.
  - destruct (truthy (tilejson d)); injection Hrun as <-; simpl;
      [|reflexivity].
    by rewrite minZoomWith_idempotent, maxZoomWith_idempotent.
  - discriminate.
  - discriminate.
Qed.

Lemma Qc_max_le_iff (a b z : Qc) : Qc_max a b ≤ z ↔ a ≤ z ∧ b ≤ z.
Proof.
  destruct (Qc_max_ge a b) as [Ha Hb]. split.
  - intros Hz. split; eapply Qcle_trans; eauto.
  - intros [Haz Hbz]. unfold Qc_max. by case_bool_decide.
Qed.

Lemma Qc_min_ge_iff (a b z : Qc) : z ≤ Qc_min a b ↔ z ≤ a ∧ z ≤ b.
Proof.
  destruct (Qc_min_le a b) as [Ha Hb]. split.
  - intros Hz. split; eapply Qcle_trans; eauto.
  - intros [Haz Hbz]. unfold Qc_min. by case_bool_decide.
Qed.

(** X25. With finite bounds on both sides, the zoom range after the update
    is the intersection of the caller's range and the document's: a zoom
    level lies in it exactly when it lies in both. *)
Theorem zoom_range_is_intersection (isURLTemplate : string → bool)
    (load : string → result TileJSON)
    (onDataLoad : option (TileJSON → result TileJSON))
    (props : Props) (state state' : State)
    (doc : TileJSON) (lo hi dlo dhi : Qc) :
  _updateTileData isURLTemplate load onDataLoad props state = (state', Ok ()) →
  state_tileJSON state' = Some doc →
  props_minZoom props = PNumber (Fin lo) →
  props_maxZoom props = PNumber (Fin hi) →
  minzoom doc = VNumber (Fin dlo) →
  maxzoom doc = VNumber (Fin dhi) →
  ∃ lo' hi',
    state_minZoom state' = PNumber (Fin lo')
    ∧ state_maxZoom state' = PNumber (Fin hi')
    ∧ ∀ z, lo' ≤ z ∧ z ≤ hi' ↔ (lo ≤ z ∧ z ≤ hi) ∧ (dlo ≤ z ∧ z ≤ dhi).
Proof.
  intros Hrun Hdoc Hlo Hhi Hdlo Hdhi.
  destruct (updateTileData_with_document _ _ _ _ _ _ _ Hrun Hdoc)
    as [Hmin Hmax].
  exists (Qc_max lo dlo), (Qc_min hi dhi).
  rewrite Hmin, Hmax, Hlo, Hhi. unfold minZoomWith, maxZoomWith.
  rewrite Hdlo, Hdhi. simpl. unfold js_gt, js_lt, Qc_max, Qc_min.
  split; [by destruct (bool_decide (lo < dlo))|].
  split; [by destruct (bool_decide (dhi < hi))|].
  intros z. fold (Qc_max lo dlo). fold (Qc_min hi dhi).
  rewrite Qc_max_le_iff, Qc_min_ge_iff. tauto.
Qed.

Lemma fetch_failure_leaves_no_data_witness :
  ∃ state',
    _updateTileData (fun _ => false) (fun _ => Throw (Error "404")) None
      props_0_14 initial_state
    = (state', Throw (Error "An error occurred fetching TileJSON"))
    ∧ state_data state' = DataNull
    ∧ state_tileJSON state' = None
    ∧ state_minZoom state' = state_minZoom initial_state
    ∧ state_maxZoom state' = state_maxZoom initial_state
    ∧ renderLayers tt state' = None.
Proof.
  apply (fetch_failure_leaves_no_data (fun _ => false)
           (fun _ => Throw (Error "404")) None props_0_14 initial_state
           "https://tiles.example/tile.json" (Error "404") tt);
    reflexivity.
Defined.

Lemma url_and_document_agree_witness :
  _updateTileData (fun _ => false) (fun _ => Ok doc_2_10)
    (Some (fun d => Ok d))
    {| props_data := DataString "https://tiles.example/tile.json";
       props_minZoom := PNumber (Fin (Z2Qc 0));
       props_maxZoom := PNull |} initial_state
  = _updateTileData (fun _ => false) (fun _ => Ok doc_2_10)
      (Some (fun d => Ok d))
      {| props_data := DataObject doc_2_10;
         props_minZoom := PNumber (Fin (Z2Qc 0));
         props_maxZoom := PNull |} initial_state.
Proof.
  apply (url_and_document_agree (fun _ => false) (fun _ => Ok doc_2_10)
           (Some (fun d => Ok d)));
    reflexivity.
Defined.

Lemma updateTileData_stable_witness :
  _updateTileData (fun _ => false) (fun _ => Ok doc_2_10) None
    {| props_data := props_data props_0_14;
       props_minZoom :=
         state_minZoom
           (finishUpdate props_0_14 (props_data props_0_14) (Some doc_2_10));
       props_maxZoom :=
         state_maxZoom
           (finishUpdate props_0_14 (props_data props_0_14) (Some doc_2_10))
    |} initial_state
  = (finishUpdate props_0_14 (props_data props_0_14) (Some doc_2_10), Ok ()).
Proof.
  apply (updateTileData_stable (fun _ => false) (fun _ => Ok doc_2_10)
           None props_0_14 initial_state).
  reflexivity.
Defined.

Lemma zoom_range_is_intersection_witness :
  ∃ lo' hi',
    state_minZoom
      (finishUpdate props_0_14 (props_data props_0_14) (Some doc_2_10))
    = PNumber (Fin lo')
    ∧ state_maxZoom
        (finishUpdate props_0_14 (props_data props_0_14) (Some doc_2_10))
      = PNumber (Fin hi')
    ∧ ∀ z, lo' ≤ z ∧ z ≤ hi'
           ↔ (Z2Qc 0 ≤ z ∧ z ≤ Z2Qc 14) ∧ (Z2Qc 2 ≤ z ∧ z ≤ Z2Qc 10).
Proof.
  apply (zoom_range_is_intersection (fun _ => false) (fun _ => Ok doc_2_10)
           None props_0_14 initial_state
           (finishUpdate props_0_14 (props_data props_0_14) (Some doc_2_10))
           doc_2_10);
    reflexivity.
Defined.
